(** * Speed estimation over tracked detections: model and verification

    A shallow embedding of [src/speed_estimation.py] (class
    [SpeedEstimator]): the per-detection loop body of [estimate_speed]
    and the report writer [save_speeds_to_file].

    Modelling choices.
    - Python floats are idealised as exact rationals ([Q]); numeric
      results are compared with [==].
    - The dictionaries [spd], [trk_pt], [trk_pp] are finite maps keyed by
      the track id; [trkd_ids] and [speeds] are lists, appended at the end.
    - Exceptions are explicit: a computation returns [Ok v] or [Raise e].
    - [time()] is an oracle: the [n]-th call of the run returns [clock n],
      and the state counts the calls made so far.
    - The geometric test [LineString([p, q]).intersects(self.r_s)] belongs
      to an external library; it is a parameter of the environment.
    - Strings are byte strings; class names are taken to be ASCII, so that
      the width of a name is its number of bytes.
    - Of the ways in which [open] can fail only the missing directory is
      modelled; the statements about the report are about calls that
      return. *)

From Stdlib Require Import QArith Qabs.
From stdpp Require Import gmap strings list fin_maps pretty.

Local Open Scope Z_scope.

(** ** Exceptions *)

Inductive exn : Type :=
  | KeyError
  | IndexError
  | ZeroDivisionError
  | FileNotFoundError.

Inductive result (A : Type) : Type :=
  | Ok (a : A)
  | Raise (e : exn).
Arguments Ok {A} a.
Arguments Raise {A} e.

#[global] Instance result_ret : MRet result := fun A a => Ok a.
#[global] Instance result_bind : MBind result := fun A B f m =>
  match m with
  | Ok a => f a
  | Raise e => Raise e
  end.

(** [d[k]] on a dictionary. *)
Definition py_getitem {V : Type} (d : gmap Z V) (k : Z) : result V :=
  match d !! k with
  | Some v => Ok v
  | None => Raise KeyError
  end.

(** [l[-1]] on a list. *)
Definition py_last {A : Type} (l : list A) : result A :=
  match last l with
  | Some x => Ok x
  | None => Raise IndexError
  end.

(** [x / y] on floats. *)
Definition py_div (x y : Q) : result Q :=
  if Qeq_bool y 0 then Raise ZeroDivisionError else Ok (x / y)%Q.

(** [int(x)]: truncation towards zero. *)
Definition py_int (x : Q) : Z := Z.quot (Qnum x) (Zpos (Qden x)).

(** ** Data model *)

(** A point of the frame, [(x, y)]. *)
Abbreviation pos := (Q * Q)%type.

(** One element of [zip(self.boxes, self.track_ids, self.clss)].  The box
    is represented by the point that [store_tracking_history] appends to
    the track's history for it. *)
Record detection : Type := Detection {
  det_pos : pos;
  det_id : Z;
  det_cls : Z
}.

(** The attributes of a [SpeedEstimator] that [estimate_speed] mutates,
    with the number of [time()] calls made so far. *)
Record state : Type := State {
  spd : gmap Z Q;
  trkd_ids : list Z;
  trk_pt : gmap Z Q;
  trk_pp : gmap Z pos;
  speeds : list (string * Q);
  track_history : gmap Z (list pos);
  ticks : nat
}.

(** What one iteration of the loop shows and records: the arguments of
    [annotator.box_label] together with the track they belong to, and the
    element appended to [speeds], if any. *)
Record event : Type := Event {
  ev_id : Z;
  ev_cls : Z;
  ev_label : string;
  ev_sample : option (string * Q)
}.

(** What [estimate_speed] reads and does not change. *)
Record env : Type := Env {
  names : gmap Z string;
  intersects : pos -> pos -> bool;
  clock : nat -> Q
}.

Inductive direction : Type := known | unknown.

(** [__init__], lines 46-50. *)
Definition init : state :=
  {| spd := ∅; trkd_ids := []; trk_pt := ∅; trk_pp := ∅; speeds := [];
     track_history := ∅; ticks := O |}.

(** ** [estimate_speed] *)

(** Modelled from the spec: [store_tracking_history] is inherited from the
    library base class and is not part of the sources; section 4.1 says that
    updating a track appends the new position to the ordered history of
    that track.  The result is the updated store and [self.track_line]. *)
Definition store_tracking_history (h : gmap Z (list pos)) (track_id : Z)
    (p : pos) : gmap Z (list pos) * list pos :=
  let track_line := default [] (h !! track_id) ++ [p] in
  (<[track_id := track_line]> h, track_line).

(** [time()]. *)
Definition time (E : env) (s : state) : Q * state :=
  (clock E (ticks s),
   {| spd := spd s; trkd_ids := trkd_ids s; trk_pt := trk_pt s;
      trk_pp := trk_pp s; speeds := speeds s;
      track_history := track_history s; ticks := S (ticks s) |}).

(** Lines 80-83: entries for a track seen for the first time. *)
Definition init_track (s : state) (track_id : Z) (cur : pos) : state :=
  let pt := match trk_pt s !! track_id with
            | Some _ => trk_pt s
            | None => <[track_id := 0%Q]> (trk_pt s)
            end in
  let pp := match trk_pp s !! track_id with
            | Some _ => trk_pp s
            | None => <[track_id := cur]> (trk_pp s)
            end in
  {| spd := spd s; trkd_ids := trkd_ids s; trk_pt := pt; trk_pp := pp;
     speeds := speeds s; track_history := track_history s;
     ticks := ticks s |}.

(** The text [f"{int(v)} km/h"]. *)
Definition speed_text (v : Q) : string := pretty (py_int v) +:+ " km/h".

(** Lines 85-89. *)
Definition speed_label (E : env) (s : state) (track_id cls : Z)
    : result string :=
  match spd s !! track_id with
  | Some v => Ok (speed_text v)
  | None => py_getitem (names E) cls
  end.

(** Lines 102-107. *)
Definition get_direction (E : env) (s : state) (track_id : Z) (cur : pos)
    : result direction :=
  prev ← py_getitem (trk_pp s) track_id;
  Ok (if intersects E prev cur then known else unknown).

(** Lines 110-122. *)
Definition sample (E : env) (s : state) (dir : direction)
    (track_id cls : Z) (cur : pos) : result (state * option (string * Q)) :=
  match dir with
  | known =>
      if decide (track_id ∈ trkd_ids s) then Ok (s, None)
      else
        let ids := trkd_ids s ++ [track_id] in
        let '(now, s1) := time E s in
        pt ← py_getitem (trk_pt s1) track_id;
        let time_difference := (now - pt)%Q in
        if Qlt_le_dec 0 time_difference then
          prev ← py_getitem (trk_pp s1) track_id;
          speed ← py_div (Qabs (snd cur - snd prev)) time_difference;
          vehicle_type ← py_getitem (names E) cls;
          Ok ({| spd := <[track_id := speed]> (spd s1);
                 trkd_ids := ids;
                 trk_pt := trk_pt s1; trk_pp := trk_pp s1;
                 speeds := speeds s1 ++ [(vehicle_type, speed)];
                 track_history := track_history s1;
                 ticks := ticks s1 |},
              Some (vehicle_type, speed))
        else
          Ok ({| spd := spd s1; trkd_ids := ids;
                 trk_pt := trk_pt s1; trk_pp := trk_pp s1;
                 speeds := speeds s1;
                 track_history := track_history s1;
                 ticks := ticks s1 |},
              None)
  | unknown => Ok (s, None)
  end.

(** Lines 124-125. *)
Definition update_track (E : env) (s : state) (track_id : Z) (cur : pos)
    : state :=
  let '(now, s1) := time E s in
  {| spd := spd s1; trkd_ids := trkd_ids s1;
     trk_pt := <[track_id := now]> (trk_pt s1);
     trk_pp := <[track_id := cur]> (trk_pp s1);
     speeds := speeds s1; track_history := track_history s1;
     ticks := ticks s1 |}.

(** Lines 77-83: the history of the track is extended with the point of
    the box, and a track seen for the first time gets its entries.  The
    result is the state with [self.track_line[-1]]. *)
Definition observe (s : state) (d : detection) : result (state * pos) :=
  let '(h, track_line) :=
    store_tracking_history (track_history s) (det_id d) (det_pos d) in
  let s0 := {| spd := spd s; trkd_ids := trkd_ids s; trk_pt := trk_pt s;
               trk_pp := trk_pp s; speeds := speeds s;
               track_history := h; ticks := ticks s |} in
  cur ← py_last track_line;
  Ok (init_track s0 (det_id d) cur, cur).

(** The body of the loop, lines 77-125. *)
Definition process_detection (E : env) (s : state) (d : detection)
    : result (state * event) :=
  let track_id := det_id d in
  '(s1, cur) ← observe s d;
  label ← speed_label E s1 track_id (det_cls d);
  dir ← get_direction E s1 track_id cur;
  '(s2, smp) ← sample E s1 dir track_id (det_cls d) cur;
  Ok (update_track E s2 track_id cur,
      {| ev_id := track_id; ev_cls := det_cls d; ev_label := label;
         ev_sample := smp |}).

(** The loop over the detections of one frame, and over any sequence of
    detections. *)
Fixpoint process_all (E : env) (s : state) (ds : list detection)
    : result (state * list event) :=
  match ds with
  | [] => Ok (s, [])
  | d :: ds' =>
      '(s1, e) ← process_detection E s d;
      '(s2, es) ← process_all E s1 ds';
      Ok (s2, e :: es)
  end.

(** [estimate_speed] on the detections that [extract_tracks] found in the
    frame. *)
Definition estimate_speed (E : env) (s : state) (frame : list detection)
    : result (state * list event) :=
  process_all E s frame.

(** A run: [estimate_speed] on each frame of the stream in turn. *)
Fixpoint run (E : env) (s : state) (frames : list (list detection))
    : result (state * list event) :=
  match frames with
  | [] => Ok (s, [])
  | f :: fs =>
      '(s1, es1) ← estimate_speed E s f;
      '(s2, es2) ← run E s1 fs;
      Ok (s2, es1 ++ es2)
  end.

(** The samples that a list of events appended to [speeds]. *)
Definition samples (es : list event) : list (string * Q) :=
  omap ev_sample es.

(** The events of a track that appended a sample. *)
Definition samples_of (track_id : Z) (es : list event) : list event :=
  filter (fun e => ev_id e = track_id ∧ is_Some (ev_sample e)) es.

(** ** [save_speeds_to_file] *)

(** The line feed. *)
Definition nl : string := String (Ascii.ascii_of_nat 10) EmptyString.

(** The marker of a speed over 100, U+2B55 in UTF-8. *)
Definition marker : string := "⭕".

Definition spaces (n : nat) : string :=
  fold_right String.append "" (replicate n " ").

(** [f"{s:<w}"]: left-aligned in a field of at least [w] characters. *)
Definition pad_right (w : nat) (s : string) : string :=
  s +:+ spaces (w - String.length s).

(** [f"{s:>w}"]: right-aligned in a field of at least [w] characters. *)
Definition pad_left (w : nat) (s : string) : string :=
  spaces (w - String.length s) +:+ s.

(** The nearest integer to [n / d], ties to the even one ([0 <= n]). *)
Definition round_half_even (n : Z) (d : positive) : Z :=
  let k := n / Zpos d in
  let r := n mod Zpos d in
  match 2 * r ?= Zpos d with
  | Lt => k
  | Gt => k + 1
  | Eq => if Z.even k then k else k + 1
  end.

Definition two_digits (n : Z) : string :=
  if decide (n < 10) then "0" +:+ pretty n else pretty n.

(** [f"{x:.2f}"]. *)
Definition format_2f (x : Q) : string :=
  let k := round_half_even (Z.abs (Qnum x) * 100) (Qden x) in
  (if decide (Qnum x < 0) then "-" else "")
  +:+ pretty (k / 100) +:+ "." +:+ two_digits (k mod 100).

(** [f"{x:>10.2f}"]. *)
Definition format_10_2f (x : Q) : string := pad_left 10 (format_2f x).

(** Lines 169-174: the line of one sample. *)
Definition sample_line (vehicle_type : string) (speed : Q) : string :=
  if Qlt_le_dec 100 speed then
    pad_right 13 vehicle_type +:+ " " +:+ format_10_2f speed
      +:+ " km/h " +:+ marker +:+ nl
  else
    pad_right 15 vehicle_type +:+ " " +:+ format_10_2f speed
      +:+ " km/h" +:+ nl.

(** Line 183: the line of one class average. *)
Definition average_line (vehicle_type : string) (average_speed : Q)
    : string :=
  pad_right 15 vehicle_type +:+ " " +:+ format_10_2f average_speed
    +:+ " km/h" +:+ nl.

(** [vehicle_speeds[k].append(v)] on a [defaultdict(list)], which keeps its
    keys in the order of their insertion: a missing key is inserted last
    with a fresh list, and the value is appended to the list of the key. *)
Fixpoint dd_append (k : string) (v : Q) (m : list (string * list Q))
    : list (string * list Q) :=
  match m with
  | [] => [(k, [] ++ [v])]
  | (k', l) :: m' =>
      if decide (k = k') then (k', l ++ [v]) :: m'
      else (k', l) :: dd_append k v m'
  end.

(** [sum(l)]. *)
Definition py_sum (l : list Q) : Q := fold_left Qplus l 0%Q.

(** [len(l)], as a number. *)
Definition py_len (l : list Q) : Q := inject_Z (Z.of_nat (length l)).

(** The directories and the files (name and content) of the host. *)
Record filesystem : Type := Filesystem {
  dirs : gset string;
  files : gmap string string
}.

(** [open(filename, "w")] for a file of directory [output]: the directory
    has to exist, and the file is created or emptied. *)
Definition open_w (fs : filesystem) (filename : string)
    : result filesystem :=
  if decide ("output" ∈ dirs fs) then
    Ok {| dirs := dirs fs; files := <[filename := ""]> (files fs) |}
  else Raise FileNotFoundError.

(** [open(filename, "a")]: the file is created when it is missing and its
    content is kept otherwise. *)
Definition open_a (fs : filesystem) (filename : string)
    : result filesystem :=
  if decide ("output" ∈ dirs fs) then
    Ok {| dirs := dirs fs;
          files := <[filename := default "" (files fs !! filename)]>
                     (files fs) |}
  else Raise FileNotFoundError.

(** [f.write(text)] on the open file [filename]. *)
Definition write (fs : filesystem) (filename text : string) : filesystem :=
  {| dirs := dirs fs;
     files := alter (fun c => c +:+ text) filename (files fs) |}.

(** Lines 168-175. *)
Fixpoint write_samples (fs : filesystem) (filename : string)
    (vehicle_speeds : list (string * list Q)) (l : list (string * Q))
    : filesystem * list (string * list Q) :=
  match l with
  | [] => (fs, vehicle_speeds)
  | (vehicle_type, speed) :: l' =>
      write_samples (write fs filename (sample_line vehicle_type speed))
        filename (dd_append vehicle_type speed vehicle_speeds) l'
  end.

(** Lines 181-183. *)
Fixpoint write_averages (fs : filesystem) (filename : string)
    (items : list (string * list Q)) : result filesystem :=
  match items with
  | [] => Ok fs
  | (vehicle_type, l) :: items' =>
      average_speed ← py_div (py_sum l) (py_len l);
      write_averages
        (write fs filename (average_line vehicle_type average_speed))
        filename items'
  end.

Definition report_filename (unique_id : string) : string :=
  "output/speeds_" +:+ unique_id +:+ ".txt".

(** Lines 156-183; [unique_id] is the text of [uuid.uuid4()]. *)
Definition save_speeds_to_file (s : state) (unique_id : string)
    (fs : filesystem) : result filesystem :=
  let filename := report_filename unique_id in
  fs1 ← open_w fs filename;
  let fs2 := write fs1 filename ("Vehicle Type      Speed (km/h)" +:+ nl) in
  let fs3 := write fs2 filename ("==============================" +:+ nl) in
  let '(fs4, vehicle_speeds) := write_samples fs3 filename [] (speeds s) in
  fs5 ← open_a fs4 filename;
  let fs6 := write fs5 filename (nl +:+ "Average Speeds:" +:+ nl) in
  let fs7 := write fs6 filename ("==============================" +:+ nl) in
  write_averages fs7 filename vehicle_speeds.

(** The content of a file, if it exists. *)
Definition read (fs : filesystem) (filename : string) : option string :=
  files fs !! filename.

(** ** The driver, [main_v7.py] *)

(** [cv2.waitKey(1) & 0xFF == ord("q")], line 42; [key] is what
    [cv2.waitKey] returned. *)
Definition quit_key (key : Z) : bool := Z.land key 255 =? 113.

(** The loop of lines 22-43.  The stream is the list of the frames that
    [cap.read()] delivers, each with the detections that the tracker finds
    in it and the key code that [cv2.waitKey] returns after it was shown;
    the end of the list is the failed read of line 25.  [cap] is released
    after the loop only, so the test of line 22 holds at each turn. *)
Fixpoint main_loop (E : env) (s : state) (video : list (list detection * Z))
    : result (state * list event) :=
  match video with
  | [] => Ok (s, [])
  | (frame, key) :: video' =>
      '(s1, es1) ← estimate_speed E s frame;
      if quit_key key then Ok (s1, es1)
      else
        '(s2, es2) ← main_loop E s1 video';
        Ok (s2, es1 ++ es2)
  end.

(** How the script ends: on the assertion of line 9, on an exception of the
    estimator or of the report writer, or after the report was written. *)
Inductive main_outcome : Type :=
  | AssertionFailed
  | Raised (e : exn)
  | Done (s : state) (es : list event) (fs : filesystem).

(** The script; [opened] is [cap.isOpened()] at line 9, and the
    environment holds the names of the model (line 19). *)
Definition main (E : env) (opened : bool) (video : list (list detection * Z))
    (unique_id : string) (fs : filesystem) : main_outcome :=
  if opened then
    match main_loop E init video with
    | Ok (s, es) =>
        match save_speeds_to_file s unique_id fs with
        | Ok fs' => Done s es fs'
        | Raise e => Raised e
        end
    | Raise e => Raised e
    end
  else AssertionFailed.

(** ** Notions used by the statements *)

(** The previous position and timestamp that an iteration works with: the
    stored ones, or the ones of lines 80-83 for a track seen for the first
    time. *)
Definition prev_pos (s : state) (d : detection) : pos :=
  default (det_pos d) (trk_pp s !! det_id d).

Definition prev_time (s : state) (d : detection) : Q :=
  default 0%Q (trk_pt s !! det_id d).

(** The crossing predicate of the iteration, line 102. *)
Definition crossing (E : env) (s : state) (d : detection) : bool :=
  intersects E (prev_pos s d) (det_pos d).

(** The elapsed time of the iteration, line 112. *)
Definition elapsed (E : env) (s : state) (d : detection) : Q :=
  (clock E (ticks s) - prev_time s d)%Q.

(** Vertical displacement over elapsed time, lines 114-117. *)
Definition speed_of (E : env) (s : state) (d : detection) : Q :=
  (Qabs (snd (det_pos d) - snd (prev_pos s d)) / elapsed E s d)%Q.

(** What an iteration that returns does to the attributes, besides the
    bookkeeping of lines 124-125: it passes (no crossing, or the track is
    in [trkd_ids] already), or it marks the track without a sample because
    the clock did not advance, or it marks the track and records a
    sample. *)
Inductive outcome (E : env) (s : state) (d : detection) (s' : state)
    : option (string * Q) -> Prop :=
  | Passed :
      crossing E s d = false \/ det_id d ∈ trkd_ids s ->
      spd s' = spd s -> trkd_ids s' = trkd_ids s ->
      speeds s' = speeds s -> ticks s' = S (ticks s) ->
      outcome E s d s' None
  | Stalled :
      crossing E s d = true -> det_id d ∉ trkd_ids s ->
      (elapsed E s d <= 0)%Q ->
      spd s' = spd s -> trkd_ids s' = trkd_ids s ++ [det_id d] ->
      speeds s' = speeds s -> ticks s' = S (S (ticks s)) ->
      outcome E s d s' None
  | Sampled vt :
      crossing E s d = true -> det_id d ∉ trkd_ids s ->
      (0 < elapsed E s d)%Q ->
      names E !! det_cls d = Some vt ->
      spd s' = <[det_id d := speed_of E s d]> (spd s) ->
      trkd_ids s' = trkd_ids s ++ [det_id d] ->
      speeds s' = speeds s ++ [(vt, speed_of E s d)] ->
      ticks s' = S (S (ticks s)) ->
      outcome E s d s' (Some (vt, speed_of E s d)).

(** Every track with a speed is in [trkd_ids]. *)
Definition spd_tracked (s : state) : Prop :=
  forall id, is_Some (spd s !! id) -> id ∈ trkd_ids s.

(** The label of an event is the name of the class of its detection. *)
Definition class_label (E : env) (e : event) : Prop :=
  names E !! ev_cls e = Some (ev_label e).

(** The classes of a list of samples, each once, in the order in which
    they first occur. *)
Fixpoint first_seen_from (seen : list string) (l : list string)
    : list string :=
  match l with
  | [] => []
  | k :: l' =>
      if decide (k ∈ seen) then first_seen_from seen l'
      else k :: first_seen_from (seen ++ [k]) l'
  end.

Definition first_seen (l : list (string * Q)) : list string :=
  first_seen_from [] (l.*1).

(** The speeds of the samples of class [k], in the order of the list. *)
Definition values_of (k : string) (l : list (string * Q)) : list Q :=
  (filter (fun p => p.1 = k) l).*2.

(** The samples grouped by class, classes in first-seen order. *)
Definition spec_groups (l : list (string * Q)) : list (string * list Q) :=
  (fun k => (k, values_of k l)) <$> first_seen l.

(** The arithmetic mean. *)
Definition mean (l : list Q) : Q := (py_sum l / py_len l)%Q.

Definition concat_lines (ls : list string) : string :=
  fold_right String.append "" ls.

(** The report of section 6 for a list of samples. *)
Definition report_text (l : list (string * Q)) : string :=
  ("Vehicle Type      Speed (km/h)" +:+ nl)
  +:+ ("==============================" +:+ nl)
  +:+ concat_lines ((fun p => sample_line p.1 p.2) <$> l)
  +:+ (nl +:+ "Average Speeds:" +:+ nl)
  +:+ ("==============================" +:+ nl)
  +:+ concat_lines ((fun g => average_line g.1 (mean g.2)) <$> spec_groups l).

(** [vehicle_speeds] after the loop of lines 168-175. *)
Definition grouped (vs : list (string * list Q)) (l : list (string * Q))
    : list (string * list Q) :=
  fold_left (fun vs p => dd_append p.1 p.2 vs) l vs.

(** The text [s] ends with the text [suffix]. *)
Definition ends_with (suffix s : string) : bool :=
  bool_decide (String.list_ascii_of_string suffix
               `suffix_of` String.list_ascii_of_string s).

(** The frames of a stream that the driver processes: those up to and
    including the first one after which the quit key was read. *)
Fixpoint played (video : list (list detection * Z)) : list (list detection) :=
  match video with
  | [] => []
  | (frame, key) :: video' =>
      frame :: (if quit_key key then [] else played video')
  end.

(** The track ids of a list of detections. *)
Definition ids_of (ds : list detection) : gset Z :=
  list_to_set (det_id <$> ds).

(** The states that a run from the constructor state can reach. *)
Definition reachable (E : env) (s : state) : Prop :=
  exists frames es, run E init frames = Ok (s, es).

(** What the attributes satisfy together after a run. *)
Definition consistent (s : state) : Prop :=
  NoDup (trkd_ids s) /\ spd_tracked s /\
  length (speeds s) = size (spd s) /\
  (forall id v, spd s !! id = Some v -> exists vt, (vt, v) ∈ speeds s).

(** ** Concrete environments and inputs *)

(** A state whose list of samples is [l]. *)
Definition with_speeds (l : list (string * Q)) : state :=
  {| spd := ∅; trkd_ids := []; trk_pt := ∅; trk_pp := ∅; speeds := l;
     track_history := ∅; ticks := O |}.

(** A host on which the directory [output] exists. *)
Definition host_fs : filesystem := {| dirs := {["output"]}; files := ∅ |}.

Definition demo_names : gmap Z string := {[ 2 := "car"; 7 := "truck" ]}.

(** Crossing of the horizontal line [y = y0]. *)
Definition crosses_hline (y0 : Q) (p q : pos) : bool :=
  (Qle_bool (snd p) y0 && Qle_bool y0 (snd q))
  || (Qle_bool (snd q) y0 && Qle_bool y0 (snd p)).

(** A clock that advances by two seconds at each reading. *)
Definition demo_env : env :=
  {| names := demo_names; intersects := crosses_hline 150;
     clock := fun n => inject_Z (10 + 2 * Z.of_nat n) |}.

(** A clock whose first two readings are equal. *)
Definition stalled_env : env :=
  {| names := demo_names; intersects := crosses_hline 150;
     clock := fun n => if decide (n ≤ 1)%nat then 10%Q
                       else inject_Z (10 + Z.of_nat n) |}.

(** A car that moves down the frame, across the line [y = 150], then back. *)
Definition car_at (y : Z) : detection :=
  {| det_pos := (640%Q, inject_Z y); det_id := 1; det_cls := 2 |}.

Definition demo_frames : list (list detection) :=
  [[car_at 100]; [car_at 200]; [car_at 100]].

Definition demo_samples : list (string * Q) :=
  [("car", 50%Q); ("car", 70%Q); ("truck", 120%Q)].

(** The first two frames and the third one. *)
Definition demo_crossing : list (list detection) :=
  [[car_at 100]; [car_at 200]].

Definition demo_return : list (list detection) := [[car_at 100]].

(** The report of the three samples, as section 8 gives it. *)
Definition demo_report : string :=
  "Vehicle Type      Speed (km/h)" +:+ nl +:+
  "==============================" +:+ nl +:+
  "car                  50.00 km/h" +:+ nl +:+
  "car                  70.00 km/h" +:+ nl +:+
  "truck             120.00 km/h ⭕" +:+ nl +:+
  "" +:+ nl +:+
  "Average Speeds:" +:+ nl +:+
  "==============================" +:+ nl +:+
  "car                  60.00 km/h" +:+ nl +:+
  "truck               120.00 km/h" +:+ nl.

(** A host on which other reports exist already. *)
Definition used_fs : filesystem :=
  {| dirs := {["output"]};
     files := {[ "output/speeds_b.txt" := "old" ]} |}.

(** The states and events of the two runs, frame by frame. *)
Definition run_of (E : env) (s : state) (frames : list (list detection))
    : state * list event :=
  match run E s frames with
  | Ok r => r
  | Raise _ => (s, [])
  end.

Definition demo_state1 : state :=
  Eval vm_compute in (run_of demo_env init [[car_at 100]]).1.
Definition demo_state2 : state :=
  Eval vm_compute in (run_of demo_env init demo_crossing).1.
Definition demo_events2 : list event :=
  Eval vm_compute in (run_of demo_env init demo_crossing).2.
Definition demo_state3 : state :=
  Eval vm_compute in (run_of demo_env demo_state2 demo_return).1.
Definition demo_events3 : list event :=
  Eval vm_compute in (run_of demo_env demo_state2 demo_return).2.

Definition demo_observed2 : state :=
  Eval vm_compute in
    match observe demo_state1 (car_at 200) with
    | Ok (s, _) => s
    | Raise _ => demo_state1
    end.

Definition stalled_state1 : state :=
  Eval vm_compute in (run_of stalled_env init [[car_at 100]]).1.
Definition stalled_state2 : state :=
  Eval vm_compute in (run_of stalled_env init demo_crossing).1.
Definition stalled_state3 : state :=
  Eval vm_compute in (run_of stalled_env init demo_frames).1.

(** A car first seen on the line, and detections of a class without a
    name. *)
Definition demo_state_on_line : state :=
  Eval vm_compute in (run_of demo_env init [[car_at 150]]).1.

Definition unnamed_new : detection :=
  {| det_pos := (640%Q, 300%Q); det_id := 5; det_cls := 99 |}.

Definition unnamed_known : detection :=
  {| det_pos := (640%Q, 300%Q); det_id := 1; det_cls := 99 |}.

(** A stream of three frames on which [q] is pressed while the second
    is shown; no key is pressed on the others. *)
Definition demo_video : list (list detection * Z) :=
  [([car_at 100], -1); ([car_at 200], 113); ([car_at 100], -1)].

(** A stream whose third frame shows a track of a class without a name,
    after the car got its sample. *)
Definition crashing_video : list (list detection * Z) :=
  [([car_at 100], -1); ([car_at 200], -1); ([unnamed_new], -1)].

(** Crossing of the vertical line [x = x0], and a car that crosses it on
    a level move. *)
Definition crosses_vline (x0 : Q) (p q : pos) : bool :=
  (Qle_bool (fst p) x0 && Qle_bool x0 (fst q))
  || (Qle_bool (fst q) x0 && Qle_bool x0 (fst p)).

Definition side_env : env :=
  {| names := demo_names; intersects := crosses_vline 700;
     clock := fun n => inject_Z (10 + 2 * Z.of_nat n) |}.

Definition car_moved_sideways : detection :=
  {| det_pos := (800%Q, 100%Q); det_id := 1; det_cls := 2 |}.

Definition side_state1 : state :=
  Eval vm_compute in (run_of side_env init [[car_at 100]]).1.
Definition side_state2 : state :=
  Eval vm_compute in
    (run_of side_env init [[car_at 100]; [car_moved_sideways]]).1.

(** * Verification *)

(** ** The exception layer *)

Lemma bind_Ok {A B} (m : result A) (f : A -> result B) (b : B) :
  m ≫= f = Ok b -> exists a, m = Ok a /\ f a = Ok b.
Proof. destruct m as [a|]; [eauto | discriminate]. Qed.

Lemma py_last_snoc {A} (l : list A) (x : A) : py_last (l ++ [x]) = Ok x.
Proof. unfold py_last. by rewrite last_snoc. Qed.

Lemma py_div_pos (x y : Q) : (0 < y)%Q -> py_div x y = Ok (x / y)%Q.
Proof.
  intros Hy. unfold py_div.
  destruct (Qeq_bool y 0) eqn:Hb; [|done].
  apply Qeq_bool_iff in Hb. rewrite Hb in Hy. by apply Qlt_irrefl in Hy.
Qed.

(** ** One iteration of the loop *)

Section Steps.
Context (E : env).

Lemma init_track_pp s id cur :
  trk_pp (init_track s id cur) !! id = Some (default cur (trk_pp s !! id)).
Proof.
  unfold init_track; cbn.
  destruct (trk_pp s !! id) eqn:Hp; cbn; [done | by rewrite lookup_insert_eq].
Qed.

Lemma init_track_pt s id cur :
  trk_pt (init_track s id cur) !! id = Some (default 0%Q (trk_pt s !! id)).
Proof.
  unfold init_track; cbn.
  destruct (trk_pt s !! id) eqn:Hp; cbn; [done | by rewrite lookup_insert_eq].
Qed.

(** Lines 77-83 never raise, and leave [spd], [trkd_ids], [speeds] and the
    clock alone. *)
Lemma observe_Ok s d :
  exists s1, observe s d = Ok (s1, det_pos d) /\
    spd s1 = spd s /\ trkd_ids s1 = trkd_ids s /\ speeds s1 = speeds s /\
    ticks s1 = ticks s /\
    trk_pt s1 !! det_id d = Some (prev_time s d) /\
    trk_pp s1 !! det_id d = Some (prev_pos s d) /\
    (forall x, <[det_id d := x]> (trk_pt s1) = <[det_id d := x]> (trk_pt s)) /\
    (forall x, <[det_id d := x]> (trk_pp s1) = <[det_id d := x]> (trk_pp s)).
Proof.
  unfold observe, store_tracking_history. rewrite py_last_snoc.
  cbn [mbind result_bind]. eexists; split; [reflexivity|].
  repeat split; try done.
  - apply init_track_pt.
  - apply init_track_pp.
  - intros x. unfold init_track; cbn.
    destruct (trk_pt s !! det_id d); [done | by rewrite insert_insert_eq].
  - intros x. unfold init_track; cbn.
    destruct (trk_pp s !! det_id d); [done | by rewrite insert_insert_eq].
Qed.

(** What the branch of lines 110-122 does. *)
Lemma sample_inv s1 dir id cls cur s2 smp pt prev :
  trk_pt s1 !! id = Some pt -> trk_pp s1 !! id = Some prev ->
  sample E s1 dir id cls cur = Ok (s2, smp) ->
  trk_pt s2 = trk_pt s1 /\ trk_pp s2 = trk_pp s1 /\
  ((dir = unknown \/ id ∈ trkd_ids s1) /\ smp = None /\ s2 = s1
   \/ dir = known /\ (id ∉ trkd_ids s1) /\
      (clock E (ticks s1) - pt <= 0)%Q /\ smp = None /\
      spd s2 = spd s1 /\ trkd_ids s2 = trkd_ids s1 ++ [id] /\
      speeds s2 = speeds s1 /\ ticks s2 = S (ticks s1)
   \/ dir = known /\ (id ∉ trkd_ids s1) /\
      (0 < clock E (ticks s1) - pt)%Q /\
      exists vt, names E !! cls = Some vt /\
        let v := (Qabs (snd cur - snd prev) / (clock E (ticks s1) - pt))%Q in
        smp = Some (vt, v) /\
        spd s2 = <[id := v]> (spd s1) /\
        trkd_ids s2 = trkd_ids s1 ++ [id] /\
        speeds s2 = speeds s1 ++ [(vt, v)] /\ ticks s2 = S (ticks s1)).
Proof.
  intros Hpt Hpp. unfold sample.
  destruct dir; [|by (intros [= <- <-]; eauto 10)].
  destruct (decide _) as [Hin|Hin]; [by (intros [= <- <-]; eauto 10)|].
  unfold time, py_getitem. cbn [trk_pt trk_pp]. rewrite Hpt.
  cbn [mbind result_bind ticks].
  destruct (Qlt_le_dec _ _) as [Hpos|Hle].
  - rewrite Hpp. cbn [mbind result_bind].
    rewrite py_div_pos by done. cbn [mbind result_bind].
    destruct (names E !! cls) as [vt|] eqn:Hn; [|discriminate].
    cbn [mbind result_bind]. intros [= <- <-]. cbn.
    do 2 (split; [done|]). right; right. eauto 12.
  - intros [= <- <-]. cbn.
    do 2 (split; [done|]). right; left. eauto 12.
Qed.

(** What an iteration that returns has done. *)
Lemma step_inv s d s' e :
  process_detection E s d = Ok (s', e) ->
  ev_id e = det_id d /\ ev_cls e = det_cls d /\
  speed_label E s (det_id d) (det_cls d) = Ok (ev_label e) /\
  trk_pt s' = <[det_id d := clock E (pred (ticks s'))]> (trk_pt s) /\
  trk_pp s' = <[det_id d := det_pos d]> (trk_pp s) /\
  outcome E s d s' (ev_sample e).
Proof.
  unfold process_detection.
  destruct (observe_Ok s d)
    as (s1 & -> & Hspd & Hids & Hsp & Htk & Hpt & Hpp & Hipt & Hipp).
  cbn [mbind result_bind]. intros H.
  apply bind_Ok in H as (label & Hl & H).
  apply bind_Ok in H as (dir & Hd & H).
  apply bind_Ok in H as ([s2 smp] & Hs & H).
  injection H as <- <-. cbn [ev_id ev_cls ev_label ev_sample].
  do 2 (split; [done|]).
  split; [unfold speed_label in *; by rewrite <- Hspd|].
  unfold get_direction, py_getitem in Hd. rewrite Hpp in Hd.
  cbn [mbind result_bind] in Hd. injection Hd as Hd.
  fold (crossing E s d) in Hd.
  destruct (sample_inv _ _ _ _ _ _ _ _ _ Hpt Hpp Hs) as (Ept & Epp & Hcase).
  unfold update_track, time. cbn [trk_pt trk_pp spd trkd_ids speeds ticks].
  rewrite Ept, Epp, Hipt, Hipp. do 2 (split; [done|]).
  destruct Hcase as [(Hno & -> & ->)
    | [(-> & Hin & Hle & -> & Es & Ei & Esp & Et)
      | (-> & Hin & Hpos & vt & Hn & -> & Es & Ei & Esp & Et)]].
  - apply Passed; cbn; try congruence.
    destruct Hno as [->|Hin]; [|right; congruence].
    left. by destruct (crossing E s d).
  - destruct (crossing E s d) eqn:Hc; [|done].
    rewrite Htk in Hle.
    apply Stalled; cbn; try congruence; by unfold elapsed.
  - destruct (crossing E s d) eqn:Hc; [|done].
    rewrite Htk in Hpos, Es, Esp |- *.
    fold (elapsed E s d) in Hpos, Es, Esp |- *.
    fold (speed_of E s d) in Es, Esp |- *.
    apply Sampled; cbn; try congruence.
Qed.
(** An iteration raises only for a class without a name. *)
Lemma step_total s d vt :
  names E !! det_cls d = Some vt ->
  exists s' e, process_detection E s d = Ok (s', e).
Proof.
  intros Hn. unfold process_detection.
  destruct (observe_Ok s d)
    as (s1 & -> & Hspd & Hids & Hsp & Htk & Hpt & Hpp & _).
  cbn [mbind result_bind].
  assert (exists label, speed_label E s1 (det_id d) (det_cls d) = Ok label)
    as [label ->].
  { unfold speed_label, py_getitem. rewrite Hn.
    destruct (spd s1 !! det_id d); eauto. }
  cbn [mbind result_bind].
  unfold get_direction, py_getitem. rewrite Hpp. cbn [mbind result_bind].
  assert (forall dir, exists s2 smp,
    sample E s1 dir (det_id d) (det_cls d) (det_pos d) = Ok (s2, smp))
    as Hsample.
  { intros dir. unfold sample. destruct dir; [|by eauto].
    destruct (decide _); [by eauto|].
    unfold time, py_getitem. cbn [trk_pt trk_pp]. rewrite Hpt.
    cbn [mbind result_bind]. destruct (Qlt_le_dec _ _); [|by eauto].
    rewrite Hpp. cbn [mbind result_bind].
    rewrite py_div_pos by done. cbn [mbind result_bind].
    rewrite Hn. cbn [mbind result_bind]. eauto. }
  destruct (Hsample (if intersects E (prev_pos s d) (det_pos d)
                     then known else unknown)) as (s2 & smp & ->).
  cbn [mbind result_bind]. eauto.
Qed.

(** The consequences of an iteration that the invariants use. *)
Lemma outcome_speeds s d s' smp :
  outcome E s d s' smp -> speeds s' = speeds s ++ option_list smp.
Proof.
  destruct 1 as [_ _ _ -> _ | _ _ _ _ _ -> _ | vt _ _ _ _ _ _ -> _]; cbn;
    by rewrite ?app_nil_r.
Qed.

Lemma outcome_trkd_mono s d s' smp id :
  outcome E s d s' smp -> id ∈ trkd_ids s -> id ∈ trkd_ids s'.
Proof.
  destruct 1 as [_ _ -> _ _ | _ _ _ _ -> _ _ | vt _ _ _ _ _ -> _ _];
    set_solver.
Qed.

Lemma outcome_marked s d s' smp :
  outcome E s d s' smp -> det_id d ∈ trkd_ids s ->
  smp = None /\ spd s' = spd s /\ trkd_ids s' = trkd_ids s /\
  speeds s' = speeds s.
Proof. by destruct 1. Qed.

Lemma outcome_sampled s d s' vt v :
  outcome E s d s' (Some (vt, v)) ->
  (det_id d ∉ trkd_ids s) /\ det_id d ∈ trkd_ids s' /\
  spd s' = <[det_id d := v]> (spd s) /\ (0 <= v)%Q /\
  v = speed_of E s d /\ (0 < elapsed E s d)%Q /\
  crossing E s d = true /\ names E !! det_cls d = Some vt /\
  speeds s' = speeds s ++ [(vt, v)].
Proof.
  inversion 1 as [| |? Hc Hin Hpos Hn Es Ei Esp Et]; subst.
  repeat split; try done.
  - rewrite Ei. set_solver.
  - unfold speed_of, Qdiv. apply Qmult_le_0_compat; [apply Qabs_nonneg|].
    apply Qinv_le_0_compat. by apply Qlt_le_weak.
Qed.

Lemma outcome_unsampled s d s' :
  outcome E s d s' None -> spd s' = spd s /\ speeds s' = speeds s.
Proof. by inversion 1. Qed.

Lemma outcome_spd_tracked s d s' smp :
  outcome E s d s' smp -> spd_tracked s -> spd_tracked s'.
Proof.
  intros Ho Hs id. destruct Ho as
    [_ -> -> _ _ | _ _ _ -> -> _ _ | vt _ _ _ _ -> -> _ _].
  - apply Hs.
  - intros Hid. apply Hs in Hid. set_solver.
  - destruct (decide (id = det_id d)) as [->|Hne]; [set_solver|].
    rewrite lookup_insert_ne by done. intros Hid. apply Hs in Hid.
    set_solver.
Qed.

Lemma outcome_spd_other s d s' smp id :
  outcome E s d s' smp -> id ≠ det_id d -> spd s' !! id = spd s !! id.
Proof.
  destruct 1 as [_ -> _ _ _ | _ _ _ -> _ _ _ | vt _ _ _ _ -> _ _ _];
    try done.
  intros Hne. by rewrite lookup_insert_ne.
Qed.

(** A recorded speed is never overwritten. *)
Lemma outcome_spd_kept s d s' smp id v :
  outcome E s d s' smp -> spd_tracked s ->
  spd s !! id = Some v -> spd s' !! id = Some v.
Proof.
  intros Ho Hs Hv. destruct Ho as
    [_ -> _ _ _ | _ _ _ -> _ _ _ | vt _ Hin _ _ -> _ _ _]; try done.
  rewrite lookup_insert_ne; [done|].
  intros <-. apply Hin, Hs. by eexists.
Qed.
End Steps.

(** ** Sequences of iterations *)

Section Runs.
Context (E : env).

Lemma process_all_cons s d ds s' es :
  process_all E s (d :: ds) = Ok (s', es) ->
  exists s1 e es', process_detection E s d = Ok (s1, e) /\
    process_all E s1 ds = Ok (s', es') /\ es = e :: es'.
Proof.
  cbn [process_all]. intros H.
  apply bind_Ok in H as ([s1 e] & H1 & H).
  apply bind_Ok in H as ([s2 es'] & H2 & H).
  injection H as <- <-. eauto 6.
Qed.

Lemma process_all_app_eq s ds1 ds2 :
  process_all E s (ds1 ++ ds2) =
  '(s1, es1) ← process_all E s ds1;
  '(s2, es2) ← process_all E s1 ds2;
  Ok (s2, es1 ++ es2).
Proof.
  revert s. induction ds1 as [|d ds1 IH]; intros s.
  - cbn. by destruct (process_all E s ds2) as [[s2 es2]|x].
  - cbn [process_all app].
    destruct (process_detection E s d) as [[s0 e]|x]; [|done].
    cbn [mbind result_bind]. rewrite IH.
    destruct (process_all E s0 ds1) as [[s1 es1]|x]; [|done].
    cbn [mbind result_bind].
    by destruct (process_all E s1 ds2) as [[s2 es2]|x].
Qed.

Lemma process_all_app s ds1 ds2 s1 es1 s2 es2 :
  process_all E s ds1 = Ok (s1, es1) ->
  process_all E s1 ds2 = Ok (s2, es2) ->
  process_all E s (ds1 ++ ds2) = Ok (s2, es1 ++ es2).
Proof. intros H1 H2. by rewrite process_all_app_eq, H1; cbn; rewrite H2. Qed.

Lemma process_all_app_inv s ds1 ds2 s2 es :
  process_all E s (ds1 ++ ds2) = Ok (s2, es) ->
  exists s1 es1 es2, process_all E s ds1 = Ok (s1, es1) /\
    process_all E s1 ds2 = Ok (s2, es2) /\ es = es1 ++ es2.
Proof.
  rewrite process_all_app_eq. intros H.
  apply bind_Ok in H as ([s1 es1] & H1 & H).
  apply bind_Ok in H as ([s2' es2] & H2 & H).
  injection H as <- <-. eauto 6.
Qed.

(** The events of a sequence split as the sequence does. *)
Lemma process_all_split s ds s' pre post :
  process_all E s ds = Ok (s', pre ++ post) ->
  exists s1 ds1 ds2, ds = ds1 ++ ds2 /\
    process_all E s ds1 = Ok (s1, pre) /\
    process_all E s1 ds2 = Ok (s', post).
Proof.
  revert s ds. induction pre as [|e pre IH]; intros s ds H.
  - exists s, [], ds. eauto.
  - destruct ds as [|d ds]; [discriminate|].
    apply process_all_cons in H as (s0 & e' & es' & Hd & Hr & [= <- <-]).
    apply IH in Hr as (s1 & ds1 & ds2 & -> & H1 & H2).
    exists s1, (d :: ds1), ds2. split; [done|]. split; [|done].
    cbn [process_all]. rewrite Hd. cbn [mbind result_bind].
    by rewrite H1.
Qed.

(** A run is the loop body on the detections of its frames in turn. *)
Lemma run_concat s frames :
  run E s frames = process_all E s (concat frames).
Proof.
  revert s. induction frames as [|f fs IH]; intros s; [done|].
  cbn [run concat]. unfold estimate_speed. rewrite process_all_app_eq.
  destruct (process_all E s f) as [[s1 es1]|x]; [|done].
  cbn [mbind result_bind]. by rewrite IH.
Qed.

Lemma samples_cons e es :
  samples (e :: es) = option_list (ev_sample e) ++ samples es.
Proof. unfold samples. cbn. by destruct (ev_sample e). Qed.

Lemma samples_app es1 es2 : samples (es1 ++ es2) = samples es1 ++ samples es2.
Proof. unfold samples. apply omap_app. Qed.

Lemma samples_of_cons id e es :
  samples_of id (e :: es) =
  (if decide (ev_id e = id /\ is_Some (ev_sample e)) then [e] else [])
  ++ samples_of id es.
Proof. unfold samples_of. rewrite filter_cons. by destruct (decide _). Qed.

Lemma samples_of_app id es1 es2 :
  samples_of id (es1 ++ es2) = samples_of id es1 ++ samples_of id es2.
Proof. unfold samples_of. apply filter_app. Qed.

(** Induction over the iterations of a sequence that returns. *)
Lemma process_all_ind (P : state -> list event -> state -> Prop) :
  (forall s, P s [] s) ->
  (forall s d ds s1 e s' es,
     process_detection E s d = Ok (s1, e) ->
     outcome E s d s1 (ev_sample e) ->
     process_all E s1 ds = Ok (s', es) ->
     P s1 es s' -> P s (e :: es) s') ->
  forall ds s s' es, process_all E s ds = Ok (s', es) -> P s es s'.
Proof.
  intros Hnil Hcons. induction ds as [|d ds IH]; intros s s' es H.
  - injection H as <- <-. apply Hnil.
  - apply process_all_cons in H as (s1 & e & es' & Hd & Hr & ->).
    eapply Hcons; [exact Hd | | exact Hr | by apply IH].
    by destruct (step_inv _ _ _ _ _ Hd) as (_ & _ & _ & _ & _ & ?).
Qed.

(** [speeds] grows by the samples of the events, in order. *)
Lemma trace_speeds ds s s' es :
  process_all E s ds = Ok (s', es) -> speeds s' = speeds s ++ samples es.
Proof.
  revert ds s s' es. apply process_all_ind.
  - intros s. by rewrite app_nil_r.
  - intros s d ds s1 e s' es _ Ho _ ->. rewrite samples_cons, app_assoc.
    by rewrite (outcome_speeds _ _ _ _ _ Ho).
Qed.

Lemma trace_trkd_mono id ds s s' es :
  process_all E s ds = Ok (s', es) -> id ∈ trkd_ids s -> id ∈ trkd_ids s'.
Proof.
  revert ds s s' es. apply (process_all_ind (fun s es s' =>
    id ∈ trkd_ids s -> id ∈ trkd_ids s')); [done|].
  intros s d ds s1 e s' es _ Ho _ IH Hin. eauto using outcome_trkd_mono.
Qed.

Lemma trace_spd_tracked ds s s' es :
  process_all E s ds = Ok (s', es) -> spd_tracked s -> spd_tracked s'.
Proof.
  revert ds s s' es. apply (process_all_ind (fun s es s' =>
    spd_tracked s -> spd_tracked s')); [done|].
  intros s d ds s1 e s' es _ Ho _ IH Hs. eauto using outcome_spd_tracked.
Qed.

(** Nothing is computed any more for a track of [trkd_ids]. *)
Lemma trace_marked id ds s s' es :
  process_all E s ds = Ok (s', es) -> id ∈ trkd_ids s ->
  samples_of id es = [] /\ spd s' !! id = spd s !! id.
Proof.
  revert ds s s' es. apply (process_all_ind (fun s es s' =>
    id ∈ trkd_ids s ->
    samples_of id es = [] /\ spd s' !! id = spd s !! id)); [done|].
  intros s d ds s1 e s' es Hd Ho _ IH Hin.
  destruct IH as [IH1 IH2]; [by eapply outcome_trkd_mono|].
  rewrite samples_of_cons, IH1, IH2.
  apply step_inv in Hd as (Hid & _).
  destruct (decide (id = det_id d)) as [->|Hne].
  - destruct (outcome_marked _ _ _ _ _ Ho Hin) as (Hn & -> & _).
    rewrite Hn. split; [|done].
    destruct (decide _) as [[_ [x Hx]]|]; [discriminate|done].
  - split; [|by eapply outcome_spd_other].
    destruct (decide _) as [[? _]|]; [congruence|done].
Qed.

(** At most one event of a track carries a sample. *)
Lemma trace_at_most_once id ds s s' es :
  process_all E s ds = Ok (s', es) -> (length (samples_of id es) ≤ 1)%nat.
Proof.
  revert ds s s' es. apply (process_all_ind (fun s es s' =>
    (length (samples_of id es) ≤ 1)%nat)); [by cbn; lia|].
  intros s d ds s1 e s' es Hd Ho Hr IH.
  rewrite samples_of_cons.
  destruct (decide _) as [[Hid [[vt v] Hsmp]]|]; [|done].
  cbn [app length]. rewrite Hsmp in Ho.
  apply outcome_sampled in Ho as (_ & Hin & _).
  apply step_inv in Hd as (Hid' & _).
  rewrite <- Hid, Hid'.
  by rewrite (proj1 (trace_marked _ _ _ _ _ Hr Hin)).
Qed.

(** Recorded speeds are not negative. *)
Lemma trace_nonneg ds s s' es :
  process_all E s ds = Ok (s', es) ->
  Forall (fun p => (0 <= p.2)%Q) (samples es).
Proof.
  revert ds s s' es. apply (process_all_ind (fun s es s' =>
    Forall (fun p => (0 <= p.2)%Q) (samples es))); [by constructor|].
  intros s d ds s1 e s' es _ Ho _ IH. rewrite samples_cons.
  destruct (ev_sample e) as [[vt v]|]; [|done].
  apply outcome_sampled in Ho as (_ & _ & _ & Hv & _).
  by constructor.
Qed.

(** Once a track has a speed, its label is that speed. *)
Lemma trace_spd_kept id v ds s s' es :
  process_all E s ds = Ok (s', es) -> spd_tracked s ->
  spd s !! id = Some v ->
  spd s' !! id = Some v /\
  forall e, e ∈ es -> ev_id e = id ->
    ev_label e = speed_text v /\ ev_sample e = None.
Proof.
  revert ds s s' es. apply (process_all_ind (fun s es s' =>
    spd_tracked s -> spd s !! id = Some v ->
    spd s' !! id = Some v /\
    forall e, e ∈ es -> ev_id e = id ->
      ev_label e = speed_text v /\ ev_sample e = None)).
  - intros s _ Hv. split; [done|]. by intros e ?%elem_of_nil.
  - intros s d ds s1 e s' es Hd Ho _ IH Hs Hv.
    destruct IH as [IH1 IH2];
      [by eapply outcome_spd_tracked | by eapply outcome_spd_kept|].
    split; [done|]. intros e' [->|He']%elem_of_cons Hid; [|by apply IH2].
    apply step_inv in Hd as (Hid' & _ & Hl & _).
    rewrite Hid in Hid'. subst id.
    unfold speed_label in Hl. rewrite Hv in Hl. injection Hl as <-.
    split; [done|].
    eapply outcome_marked; [exact Ho|]. apply Hs. by eexists.
Qed.

(** A track without a speed has had the name of its class as label. *)
Lemma trace_unsampled id ds s s' es :
  process_all E s ds = Ok (s', es) -> spd_tracked s ->
  spd s' !! id = None ->
  forall e, e ∈ es -> ev_id e = id ->
    class_label E e /\ ev_sample e = None.
Proof.
  revert ds s s' es. apply (process_all_ind (fun s es s' =>
    spd_tracked s -> spd s' !! id = None ->
    forall e, e ∈ es -> ev_id e = id ->
      class_label E e /\ ev_sample e = None)).
  - by intros s _ _ e ?%elem_of_nil.
  - intros s d ds s1 e s' es Hd Ho Hr IH Hs Hnone.
    pose proof (outcome_spd_tracked _ _ _ _ _ Ho Hs) as Hs1.
    assert (spd s1 !! id = None) as Hnone1.
    { destruct (spd s1 !! id) as [v|] eqn:Hv; [|done].
      destruct (trace_spd_kept _ _ _ _ _ _ Hr Hs1 Hv). congruence. }
    intros e' [->|He']%elem_of_cons Hid; [|by apply IH].
    apply step_inv in Hd as (Hid' & Hcls & Hl & _).
    rewrite Hid in Hid'. subst id.
    assert (ev_sample e = None) as Hsmp.
    { destruct (ev_sample e) as [[vt v]|] eqn:Hsmp; [|done].
      apply outcome_sampled in Ho as (_ & _ & Hspd & _).
      rewrite Hspd, lookup_insert_eq in Hnone1. discriminate. }
    split; [|done].
    rewrite Hsmp in Ho. apply outcome_unsampled in Ho as [Hspd _].
    unfold speed_label, py_getitem in Hl. rewrite <- Hspd, Hnone1 in Hl.
    unfold class_label. rewrite Hcls.
    destruct (names E !! det_cls d); [by injection Hl as -> | discriminate].
Qed.

Lemma outcome_ticks s d s' smp :
  outcome E s d s' smp -> (ticks s < ticks s' ≤ S (S (ticks s)))%nat.
Proof.
  destruct 1 as [_ _ _ _ -> | _ _ _ _ _ _ -> | vt _ _ _ _ _ _ _ ->]; lia.
Qed.

(** A track gets a speed only through an event that carries its sample. *)
Lemma trace_no_sample id ds s s' es :
  process_all E s ds = Ok (s', es) -> spd s !! id = None ->
  samples_of id es = [] -> spd s' !! id = None.
Proof.
  revert ds s s' es. apply (process_all_ind (fun s es s' =>
    spd s !! id = None -> samples_of id es = [] -> spd s' !! id = None));
    [done|].
  intros s d ds s1 e s' es Hd Ho _ IH Hi Hnone.
  rewrite samples_of_cons in Hnone. apply app_eq_nil in Hnone as [Hn1 Hn2].
  apply IH; [|done].
  apply step_inv in Hd as (Hid & _).
  destruct (decide (id = det_id d)) as [->|Hne];
    [|by rewrite (outcome_spd_other _ _ _ _ _ _ Ho Hne)].
  destruct (ev_sample e) as [[vt w]|] eqn:Hsmp.
  - destruct (decide _) as [|Hno] in Hn1; [discriminate|].
    destruct Hno. split; [done | by eexists].
  - by apply outcome_unsampled in Ho as [-> _].
Qed.

(** The clock is read at least once in each iteration. *)
Lemma trace_ticks ds s s' es :
  process_all E s ds = Ok (s', es) ->
  (ticks s + length ds ≤ ticks s')%nat.
Proof.
  revert s s' es. induction ds as [|d ds IH]; intros s s' es H.
  - injection H as <- _. cbn. lia.
  - apply process_all_cons in H as (s1 & e & es' & Hd & Hr & ->).
    apply step_inv in Hd as (_ & _ & _ & _ & _ & Ho).
    apply outcome_ticks in Ho. apply IH in Hr. cbn. lia.
Qed.

(** The iterations of other tracks leave the stored time and position of
    a track alone. *)
Lemma trace_bookkeeping_other id ds s s' es :
  process_all E s ds = Ok (s', es) -> id ∉ det_id <$> ds ->
  trk_pt s' !! id = trk_pt s !! id /\ trk_pp s' !! id = trk_pp s !! id.
Proof.
  revert s s' es. induction ds as [|d ds IH]; intros s s' es H Hni.
  - by injection H as <- _.
  - apply process_all_cons in H as (s1 & e & es' & Hd & Hr & ->).
    rewrite fmap_cons, not_elem_of_cons in Hni. destruct Hni as [Hne Hni].
    destruct (IH _ _ _ Hr Hni) as [-> ->].
    apply step_inv in Hd as (_ & _ & _ & -> & -> & _).
    by rewrite !lookup_insert_ne.
Qed.


End Runs.

(** ** The speed sampler *)

Lemma spd_tracked_init : spd_tracked init.
Proof. intros id [v Hv]. cbn in Hv. by rewrite lookup_empty in Hv. Qed.

(** C1. Over any run, split at any point: the list [speeds] holds exactly
    the samples of the events, at most one event of a given track carries a
    sample, and once the track is in [trkd_ids] the rest of the run records
    no sample for it and leaves its speed alone, whatever the crossing
    predicate answers. *)
Theorem at_most_once_sampling (E : env)
    (frames1 frames2 : list (list detection)) (s1 s2 : state)
    (es1 es2 : list event) (id : Z) :
  run E init frames1 = Ok (s1, es1) ->
  run E s1 frames2 = Ok (s2, es2) ->
  speeds s2 = samples (es1 ++ es2) /\
  (length (samples_of id (es1 ++ es2)) ≤ 1)%nat /\
  (id ∈ trkd_ids s1 ->
   samples_of id es2 = [] /\ spd s2 !! id = spd s1 !! id /\
   id ∈ trkd_ids s2).
Proof.
  rewrite !run_concat. intros H1 H2.
  pose proof (process_all_app _ _ _ _ _ _ _ _ H1 H2) as H.
  split; [exact (trace_speeds _ _ _ _ _ H)|].
  split; [exact (trace_at_most_once _ _ _ _ _ _ H)|].
  intros Hin. destruct (trace_marked _ _ _ _ _ _ H2 Hin) as [Hs Hv].
  eauto using trace_trkd_mono.
Qed.

Lemma at_most_once_sampling_witness :
  speeds demo_state3 = samples (demo_events2 ++ demo_events3) /\
  (length (samples_of 1 (demo_events2 ++ demo_events3)) ≤ 1)%nat /\
  samples_of 1 demo_events3 = [] /\
  spd demo_state3 !! 1 = spd demo_state2 !! 1 /\
  1 ∈ trkd_ids demo_state3.
Proof.
  destruct (at_most_once_sampling demo_env demo_crossing demo_return
              demo_state2 demo_state3 demo_events2 demo_events3 1)
    as (H1 & H2 & H3); [vm_compute; reflexivity ..|].
  split; [exact H1|]. split; [exact H2|].
  apply H3. apply list_elem_of_here.
Defined.

(** C5. After any run from the constructor state every element of [speeds]
    has a speed that is not negative. *)
Theorem speeds_nonnegative (E : env) (frames : list (list detection))
    (s : state) (es : list event) :
  run E init frames = Ok (s, es) ->
  Forall (fun p => (0 <= p.2)%Q) (speeds s).
Proof.
  rewrite run_concat. intros H.
  rewrite (trace_speeds _ _ _ _ _ H). exact (trace_nonneg _ _ _ _ _ H).
Qed.

Lemma speeds_nonnegative_witness :
  Forall (fun p => (0 <= p.2)%Q) (speeds demo_state2).
Proof.
  apply (speeds_nonnegative demo_env demo_crossing demo_state2 demo_events2).
  vm_compute; reflexivity.
Defined.

(** [int(v)] of a speed that is not negative is its integer part. *)
Lemma py_int_bounds (v : Q) :
  (0 <= v)%Q -> (inject_Z (py_int v) <= v < inject_Z (py_int v) + 1)%Q.
Proof.
  destruct v as [a b]. unfold py_int, Qle, Qlt. cbn. intros Ha.
  assert (0 <= a) as Ha' by lia.
  rewrite Z.quot_div_nonneg by lia.
  pose proof (Z.div_mod a (Z.pos b) ltac:(lia)) as Hdiv.
  pose proof (Z.mod_pos_bound a (Z.pos b) ltac:(lia)) as Hmod.
  split; nia.
Qed.

(** C6. In any run from the constructor state: if an event of a track
    carries its sample, every event of the track up to and including that
    one shows the name of the class, and every later event of the track
    shows the recorded speed: the decimal text of the integer part of the
    speed, followed by [" km/h"]; and a track of which no event carries a
    sample shows the name of the class throughout. *)
Theorem label_transition (E : env) (frames : list (list detection))
    (s : state) (es : list event) (id : Z) :
  run E init frames = Ok (s, es) ->
  (forall pre e post vt v,
     es = pre ++ e :: post -> ev_id e = id -> ev_sample e = Some (vt, v) ->
     (forall e', e' ∈ pre ++ [e] -> ev_id e' = id -> class_label E e') /\
     (forall e', e' ∈ post -> ev_id e' = id ->
        exists n : Z,
          ev_label e' = pretty n +:+ " km/h" /\
          (inject_Z n <= v < inject_Z n + 1)%Q)) /\
  (samples_of id es = [] ->
   forall e, e ∈ es -> ev_id e = id -> class_label E e).
Proof.
  rewrite run_concat. intros H. split.
  - intros pre e post vt v -> Hid Hsmp.
    apply process_all_split in H as (s1 & ds1 & ds2 & _ & H1 & H2).
    pose proof (trace_spd_tracked _ _ _ _ _ H1 spd_tracked_init) as Hs1.
    destruct ds2 as [|d ds2]; [discriminate|].
    apply process_all_cons in H2 as (s2 & e0 & es' & Hd & H2 & [= <- <-]).
    pose proof Hd as (Hid' & _ & _ & _ & _ & Ho)%step_inv.
    rewrite Hsmp in Ho.
    pose proof Ho as (Hin & _ & Hspd & Hv & _)%outcome_sampled.
    assert (id = det_id d) as -> by congruence.
    assert (spd s1 !! det_id d = None) as Hnone.
    { destruct (spd s1 !! det_id d) as [w|] eqn:Hw; [|done].
      destruct Hin. apply Hs1. by eexists. }
    split.
    + intros e' [He'|He']%elem_of_app Hide.
      * by eapply (trace_unsampled E (det_id d) ds1 init s1 pre);
          eauto using spd_tracked_init.
      * apply list_elem_of_singleton in He' as ->.
        apply step_inv in Hd as (_ & Hcls & Hl & _).
        unfold speed_label, py_getitem in Hl. rewrite Hnone in Hl.
        unfold class_label. rewrite Hcls.
        destruct (names E !! det_cls d); [by injection Hl as -> | done].
    + intros e' He' Hide. exists (py_int v).
      split; [|by apply py_int_bounds].
      change (pretty (py_int v) +:+ " km/h") with (speed_text v).
      eapply (trace_spd_kept E (det_id d) v ds2 s2 s post); eauto.
      * by eapply outcome_spd_tracked.
      * by rewrite Hspd, lookup_insert_eq.
  - intros Hnone e He Hid.
    destruct (spd s !! id) as [v|] eqn:Hv.
    + rewrite (trace_no_sample E id _ _ _ _ H) in Hv; [done| |done].
      apply lookup_empty.
    + by eapply (trace_unsampled E id (concat frames) init s es);
        eauto using spd_tracked_init.
Qed.

Lemma label_transition_witness :
  (forall e', e' ∈ [Event 1 2 "car" None;
                    Event 1 2 "car" (Some ("car", (100 # 2)%Q))] ->
     ev_id e' = 1 -> class_label demo_env e') /\
  (forall e', e' ∈ [Event 1 2 "50 km/h" None] -> ev_id e' = 1 ->
     exists n : Z,
       ev_label e' = pretty n +:+ " km/h" /\
       (inject_Z n <= 100 # 2 < inject_Z n + 1)%Q).
Proof.
  assert (run demo_env init demo_frames
          = Ok (demo_state3, demo_events2 ++ demo_events3)) as Hrun
    by (vm_compute; reflexivity).
  apply (proj1 (label_transition demo_env demo_frames demo_state3
                  (demo_events2 ++ demo_events3) 1 Hrun)
           [Event 1 2 "car" None]
           (Event 1 2 "car" (Some ("car", (100 # 2)%Q)))
           [Event 1 2 "50 km/h" None] "car" (100 # 2)%Q);
    reflexivity.
Defined.

(** C7. After [estimate_speed] has processed a frame, the stored position
    of a track of the frame is the position of its detection (the last one
    of the track in the frame), and its stored timestamp is the reading of
    the clock made at the end of the iteration of that detection, from any
    state and whatever the crossing predicate answers. *)
Theorem bookkeeping_refreshed (E : env) (s s' : state)
    (pre post : list detection) (d : detection) (es : list event) :
  estimate_speed E s (pre ++ d :: post) = Ok (s', es) ->
  det_id d ∉ det_id <$> post ->
  trk_pp s' !! det_id d = Some (det_pos d) /\
  exists s1 es1,
    estimate_speed E s (pre ++ [d]) = Ok (s1, es1) /\
    trk_pt s' !! det_id d = Some (clock E (pred (ticks s1))) /\
    (ticks s < ticks s1 ≤ ticks s')%nat.
Proof.
  unfold estimate_speed. intros H Hlast.
  apply process_all_app_inv in H as (s0 & es0 & es' & H0 & H & ->).
  apply process_all_cons in H as (s1 & e & es1 & Hd & Hr & ->).
  destruct (trace_bookkeeping_other E _ _ _ _ _ Hr Hlast) as [-> ->].
  pose proof Hd as (_ & _ & _ & Hpt & Hpp & Ho)%step_inv.
  rewrite Hpt, Hpp, !lookup_insert_eq. split; [done|].
  exists s1, (es0 ++ [e]). split.
  { apply (process_all_app _ _ _ _ _ _ _ _ H0). cbn [process_all].
    by rewrite Hd. }
  split; [done|].
  apply trace_ticks in H0, Hr. apply outcome_ticks in Ho. lia.
Qed.

Lemma bookkeeping_refreshed_witness :
  trk_pp demo_state3 !! 1 = Some (640%Q, 100%Q) /\
  exists s1 es1,
    estimate_speed demo_env demo_state2 ([] ++ [car_at 100]) = Ok (s1, es1) /\
    trk_pt demo_state3 !! 1 = Some (clock demo_env (pred (ticks s1))) /\
    (ticks demo_state2 < ticks s1 ≤ ticks demo_state3)%nat.
Proof.
  apply (bookkeeping_refreshed demo_env demo_state2 demo_state3
           [] [] (car_at 100) demo_events3).
  - vm_compute; reflexivity.
  - cbn. apply not_elem_of_nil.
Defined.

(** C3, as the code has it.  For a track that has no entries yet, lines
    77-83 return, store the timestamp zero and store the current position;
    the iteration then measures the elapsed time from zero. *)
Theorem first_seen_initialisation (E : env) (s : state) (d : detection) :
  trk_pt s !! det_id d = None ->
  trk_pp s !! det_id d = None ->
  exists s1,
    observe s d = Ok (s1, det_pos d) /\
    trk_pt s1 !! det_id d = Some 0%Q /\
    trk_pp s1 !! det_id d = Some (det_pos d) /\
    elapsed E s d = (clock E (ticks s) - 0)%Q.
Proof.
  intros Hpt Hpp.
  destruct (observe_Ok s d) as (s1 & Ho & _ & _ & _ & _ & Ept & Epp & _).
  exists s1. unfold elapsed, prev_time, prev_pos in *.
  rewrite Hpt in *. rewrite Hpp in *. done.
Qed.

Lemma first_seen_initialisation_witness :
  exists s1,
    observe init (car_at 100) = Ok (s1, det_pos (car_at 100)) /\
    trk_pt s1 !! 1 = Some 0%Q /\
    trk_pp s1 !! 1 = Some (det_pos (car_at 100)) /\
    elapsed demo_env init (car_at 100) = (clock demo_env 0 - 0)%Q.
Proof.
  apply (first_seen_initialisation demo_env init (car_at 100));
    apply lookup_empty.
Defined.

(** C3, as stated, fails: a car first seen when the clock reads 10 gets
    the stored timestamp 0, which is no reading of the clock. *)
Lemma first_seen_time_counterexample :
  exists s1,
    observe init (car_at 100) = Ok (s1, det_pos (car_at 100)) /\
    trk_pt s1 !! det_id (car_at 100) = Some 0%Q /\
    clock demo_env (ticks init) = 10%Q /\
    forall n, ~ (0 == clock demo_env n)%Q.
Proof.
  eexists. split; [vm_compute; reflexivity|].
  split; [vm_compute; reflexivity|]. split; [reflexivity|].
  intros n. unfold demo_env, clock, Qeq. cbn. lia.
Qed.

(** A crossing on which the clock has not advanced marks the track for
    good: no sample on that iteration, and none in any continuation. *)
Lemma stalled_crossing_is_final (E : env) (s s1 s2 : state) (d : detection)
    (e : event) (ds : list detection) (es : list event) :
  crossing E s d = true -> det_id d ∉ trkd_ids s ->
  (elapsed E s d <= 0)%Q ->
  process_detection E s d = Ok (s1, e) ->
  process_all E s1 ds = Ok (s2, es) ->
  ev_sample e = None /\ det_id d ∈ trkd_ids s1 /\
  samples_of (det_id d) es = [].
Proof.
  intros Hc Hin Hle Hd Hr.
  apply step_inv in Hd as (_ & _ & _ & _ & _ & Ho).
  assert (ev_sample e = None /\ det_id d ∈ trkd_ids s1) as [Hn Hin1].
  { inversion Ho as [[?|?] | ? ? ? ? Ei | ? ? ? Hpos]; subst.
    - congruence.
    - done.
    - split; [done|]. rewrite Ei. set_solver.
    - exfalso. eapply Qlt_irrefl, Qlt_le_trans; eauto. }
  split; [done|]. split; [done|].
  exact (proj1 (trace_marked E _ _ _ _ _ Hr Hin1)).
Qed.

(** C2, evaluated on the code.  The car is seen at [y = 100]; it crosses
    the line to [y = 200] while the clock still reads 10, so the elapsed
    time is zero: no sample is recorded and nothing is raised, but the car
    is put in [trkd_ids]; when it crosses the line again with a positive
    elapsed time, no sample is recorded either, and the run ends with an
    empty list of speeds. *)
Theorem stalled_clock_loses_sample :
  run stalled_env init [[car_at 100]]
    = Ok (stalled_state1, [Event 1 2 "car" None]) /\
  crossing stalled_env stalled_state1 (car_at 200) = true /\
  (1 ∉ trkd_ids stalled_state1) /\
  (elapsed stalled_env stalled_state1 (car_at 200) == 0)%Q /\
  process_detection stalled_env stalled_state1 (car_at 200)
    = Ok (stalled_state2, Event 1 2 "car" None) /\
  trkd_ids stalled_state2 = [1] /\
  crossing stalled_env stalled_state2 (car_at 100) = true /\
  (0 < elapsed stalled_env stalled_state2 (car_at 100))%Q /\
  process_detection stalled_env stalled_state2 (car_at 100)
    = Ok (stalled_state3, Event 1 2 "car" None) /\
  speeds stalled_state3 = [] /\
  spd stalled_state3 !! 1 = None.
Proof.
  repeat split; try (vm_compute; reflexivity).
  cbn. apply not_elem_of_nil.
Qed.

(** C4. An iteration that records a sample records the absolute difference
    of the vertical coordinates of the current and the stored previous
    position, divided by the time elapsed since the stored previous
    timestamp, under the name of the class of the detection.  A track seen
    at (640,100) and then at (640,200), two seconds later and crossing the
    region on that move, leaves exactly one sample, of speed 50, under the
    name of its class. *)
Theorem speed_of_a_sample (E : env) :
  (forall s d s1 cur prev pt s' e vt v,
     observe s d = Ok (s1, cur) ->
     trk_pp s1 !! det_id d = Some prev ->
     trk_pt s1 !! det_id d = Some pt ->
     process_detection E s d = Ok (s', e) ->
     ev_sample e = Some (vt, v) ->
     v = (Qabs (snd cur - snd prev) / (clock E (ticks s) - pt))%Q /\
     (0 < clock E (ticks s) - pt)%Q /\
     names E !! det_cls d = Some vt /\
     speeds s' = speeds s ++ [(vt, v)]) /\
  (forall id cls vt,
     names E !! cls = Some vt ->
     intersects E (640%Q, 100%Q) (640%Q, 100%Q) = false ->
     intersects E (640%Q, 100%Q) (640%Q, 200%Q) = true ->
     (clock E 1 - clock E 0 == 2)%Q ->
     exists s es v,
       run E init [[Detection (640%Q, 100%Q) id cls];
                   [Detection (640%Q, 200%Q) id cls]] = Ok (s, es) /\
       speeds s = [(vt, v)] /\ samples_of id es = [Event id cls vt (Some (vt, v))] /\
       (v == 50)%Q).
Proof.
  split.
  - intros s d s1 cur prev pt s' e vt v Hobs Hpp Hpt Hd Hsmp.
    destruct (observe_Ok s d) as (s1' & Ho & _ & _ & _ & _ & Ept & Epp & _).
    rewrite Hobs in Ho. injection Ho as <- ->.
    rewrite Hpp in Epp. rewrite Hpt in Ept.
    injection Epp as Epp. injection Ept as Ept.
    apply step_inv in Hd as (_ & _ & _ & _ & _ & Ho).
    rewrite Hsmp in Ho.
    apply outcome_sampled in Ho as (_ & _ & _ & _ & -> & Hpos & _ & Hn & Hsp).
    unfold speed_of, elapsed in *. rewrite <- Epp, <- Ept in *. done.
  - intros id cls vt Hn Hstill Hmove Hclock.
    set (d1 := Detection (640%Q, 100%Q) id cls).
    set (d2 := Detection (640%Q, 200%Q) id cls).
    destruct (step_total E init d1 vt Hn) as (s1 & e1 & Hd1).
    destruct (step_total E s1 d2 vt Hn) as (s2 & e2 & Hd2).
    pose proof Hd1 as (_ & _ & _ & Hpt1 & Hpp1 & Ho1)%step_inv.
    pose proof Hd2 as (Hid2 & Hcls2 & Hl2 & _ & _ & Ho2)%step_inv.
    assert (crossing E init d1 = false) as Hc1 by exact Hstill.
    assert (trkd_ids s1 = [] /\ speeds s1 = [] /\ spd s1 = ∅ /\
            ticks s1 = 1%nat /\ ev_sample e1 = None)
      as (Hids1 & Hsp1 & Hspd1 & Htk1 & Hsmp1).
    { inversion Ho1; subst; try congruence. done. }
    rewrite Htk1 in Hpt1. cbn in Hpt1, Hpp1.
    assert (prev_pos s1 d2 = (640%Q, 100%Q)) as Hprev.
    { unfold prev_pos. cbn. by rewrite Hpp1, lookup_insert_eq. }
    assert (elapsed E s1 d2 = (clock E 1 - clock E 0)%Q) as Hel.
    { unfold elapsed, prev_time. cbn. by rewrite Htk1, Hpt1, lookup_insert_eq. }
    assert (crossing E s1 d2 = true) as Hc2.
    { unfold crossing. by rewrite Hprev. }
    assert (ev_sample e2 = Some (vt, speed_of E s1 d2) /\
            speeds s2 = [(vt, speed_of E s1 d2)]) as [Hsmp2 Hsp2].
    { inversion Ho2 as [[?|Hin] | ? ? Hle | vt' ? ? ? Hn' ? ? Hsp]; subst.
      - congruence.
      - rewrite Hids1 in Hin. by apply elem_of_nil in Hin.
      - rewrite Hel, Hclock in Hle. by apply Qle_not_lt in Hle.
      - cbn in Hn'. rewrite Hn in Hn'. injection Hn' as <-.
        by rewrite Hsp, Hsp1. }
    exists s2, [e1; e2], (speed_of E s1 d2).
    split; [|split; [done|split]].
    + rewrite run_concat. change (concat _) with [d1; d2].
      cbn [process_all]. rewrite Hd1. cbn [mbind result_bind].
      by rewrite Hd2.
    + unfold speed_label, py_getitem in Hl2.
      rewrite Hspd1, lookup_empty in Hl2. cbn in Hl2, Hid2, Hcls2.
      rewrite Hn in Hl2. injection Hl2 as Hl2.
      destruct e2 as [i2 c2 l2 m2].
      cbn [ev_id ev_cls ev_label ev_sample] in *. subst.
      rewrite !samples_of_cons.
      destruct (decide _) as [[_ [x Hx]]|_]; [congruence|].
      destruct (decide _) as [_|Hno]; [done|].
      destruct Hno. split; [done | by eexists].
    + unfold speed_of. rewrite Hprev, Hel, Hclock. reflexivity.
Qed.

Lemma speed_of_a_sample_witness :
  ((100 # 2)%Q = (Qabs (200 - 100) / (clock demo_env 1 - 10))%Q /\
   (0 < clock demo_env 1 - 10)%Q /\
   names demo_env !! 2 = Some "car" /\
   speeds demo_state2 = speeds demo_state1 ++ [("car", (100 # 2)%Q)]) /\
  exists s es v,
    run demo_env init [[Detection (640%Q, 100%Q) 1 2];
                       [Detection (640%Q, 200%Q) 1 2]] = Ok (s, es) /\
    speeds s = [("car", v)] /\
    samples_of 1 es = [Event 1 2 "car" (Some ("car", v))] /\
    (v == 50)%Q.
Proof.
  destruct (speed_of_a_sample demo_env) as [Hgen Hex]. split.
  - apply (Hgen demo_state1 (car_at 200) demo_observed2 (640%Q, 200%Q)
             (640%Q, 100%Q) 10%Q demo_state2
             (Event 1 2 "car" (Some ("car", (100 # 2)%Q))) "car");
      vm_compute; reflexivity.
  - apply (Hex 1 2 "car"); vm_compute; reflexivity.
Defined.

(** ** Texts *)

Lemma string_app_cons (x : Ascii.ascii) (a b : string) :
  String x a +:+ b = String x (a +:+ b).
Proof. reflexivity. Qed.

Lemma string_app_assoc (a b c : string) : (a +:+ b) +:+ c = a +:+ (b +:+ c).
Proof.
  induction a as [|x a IH]; [done|]. by rewrite !string_app_cons, IH.
Qed.

Lemma string_app_nil_r (a : string) : a +:+ "" = a.
Proof.
  induction a as [|x a IH]; [done|]. by rewrite string_app_cons, IH.
Qed.

Lemma chars_app (a b : string) :
  String.list_ascii_of_string (a +:+ b)
  = String.list_ascii_of_string a ++ String.list_ascii_of_string b.
Proof.
  induction a as [|x a IH]; [done|].
  rewrite string_app_cons. cbn [String.list_ascii_of_string app].
  by rewrite IH.
Qed.

Lemma string_app_inv_tail (a b c : string) : a +:+ c = b +:+ c -> a = b.
Proof.
  intros H. apply (f_equal String.list_ascii_of_string) in H.
  rewrite !chars_app in H. apply app_inv_tail in H.
  rewrite <- (String.string_of_list_ascii_of_string a).
  rewrite <- (String.string_of_list_ascii_of_string b). by rewrite H.
Qed.

Lemma concat_lines_app (l1 l2 : list string) :
  concat_lines (l1 ++ l2) = concat_lines l1 +:+ concat_lines l2.
Proof.
  unfold concat_lines. induction l1 as [|x l1 IH]; [done|].
  cbn [app fold_right]. by rewrite IH, string_app_assoc.
Qed.

(** ** Grouping by class *)

Lemma first_seen_from_snoc (seen l : list string) (k : string) :
  first_seen_from seen (l ++ [k])
  = first_seen_from seen l
    ++ (if decide (k ∈ seen \/ k ∈ l) then [] else [k]).
Proof.
  revert seen. induction l as [|x l IH]; intros seen; cbn.
  - destruct (decide (k ∈ seen)), (decide _) as [[?|?%elem_of_nil]|Hn];
      try done. destruct Hn. by left.
  - destruct (decide (x ∈ seen)) as [Hx|Hx]; rewrite IH; cbn; f_equal.
    + destruct (decide _) as [Ha|Ha], (decide _) as [Hb|Hb]; try done.
      * destruct Hb. destruct Ha; [by left | right; by right].
      * destruct Ha. destruct Hb as [?|[->|?]%elem_of_cons]; auto.
    + destruct (decide _) as [Ha|Ha], (decide _) as [Hb|Hb]; try done.
      * destruct Hb. destruct Ha as [Hs|?]; [|right; by right].
        apply elem_of_app in Hs as [?|Hs]; [by left|].
        apply list_elem_of_singleton in Hs as ->. right; by left.
      * destruct Ha. rewrite elem_of_app, list_elem_of_singleton.
        destruct Hb as [?|[->|?]%elem_of_cons]; auto.
Qed.

Lemma elem_of_first_seen_from (seen l : list string) (k : string) :
  k ∈ first_seen_from seen l <-> k ∈ l /\ k ∉ seen.
Proof.
  revert seen. induction l as [|x l IH]; intros seen; cbn.
  - split; [by intros ?%elem_of_nil | by intros [?%elem_of_nil _]].
  - destruct (decide (x ∈ seen)) as [Hx|Hx].
    + rewrite IH, elem_of_cons. split; [by intros [? ?]; auto|].
      intros [[->|?] Hk]; [done | auto].
    + rewrite !elem_of_cons, IH, elem_of_app, list_elem_of_singleton.
      split.
      * intros [->|[? Hk]]; [auto|]. split; [by right | by auto].
      * intros [[->|?] Hk]; [by left|].
        destruct (decide (k = x)) as [->|Hne]; [by left|].
        right. split; [done|]. by intros [?|?].
Qed.

Lemma NoDup_first_seen_from (seen l : list string) :
  NoDup (first_seen_from seen l).
Proof.
  revert seen. induction l as [|x l IH]; intros seen; cbn.
  - constructor.
  - destruct (decide (x ∈ seen)); [apply IH|].
    constructor; [|apply IH].
    rewrite elem_of_first_seen_from, elem_of_app, list_elem_of_singleton.
    intros [_ Hn]. apply Hn. by right.
Qed.

Lemma values_of_snoc (k' k : string) (v : Q) (l : list (string * Q)) :
  values_of k' (l ++ [(k, v)])
  = values_of k' l ++ (if decide (k = k') then [v] else []).
Proof.
  unfold values_of. rewrite filter_app, fmap_app. f_equal.
  rewrite filter_cons. cbn. by destruct (decide (k = k')).
Qed.

Lemma values_of_absent (k : string) (l : list (string * Q)) :
  k ∉ l.*1 -> values_of k l = [].
Proof.
  unfold values_of. induction l as [|[k' v] l IH]; [done|].
  rewrite fmap_cons, not_elem_of_cons. intros [Hne Hni]. cbn in Hne.
  rewrite filter_cons. cbn. destruct (decide (k' = k)); [congruence|].
  by apply IH.
Qed.

Lemma grouped_snoc (vs : list (string * list Q)) (l : list (string * Q))
    (k : string) (v : Q) :
  grouped vs (l ++ [(k, v)]) = dd_append k v (grouped vs l).
Proof. unfold grouped. by rewrite fold_left_app. Qed.

Lemma dd_append_groups (k : string) (v : Q) (l : list (string * Q))
    (ks : list string) :
  NoDup ks ->
  dd_append k v ((fun k' => (k', values_of k' l)) <$> ks)
  = ((fun k' => (k', values_of k' (l ++ [(k, v)]))) <$> ks)
    ++ (if decide (k ∈ ks) then [] else [(k, [v])]).
Proof.
  induction 1 as [|x ks Hx Hnd IH]; [done|].
  cbn [fmap list_fmap dd_append]. rewrite values_of_snoc.
  destruct (decide (k = x)) as [->|Hne].
  - destruct (decide (x ∈ x :: ks)) as [_|Hn];
      [|by destruct Hn; apply list_elem_of_here].
    rewrite app_nil_r. f_equal. apply Forall_fmap_ext_1, Forall_forall.
    intros k' Hk'. rewrite values_of_snoc.
    destruct (decide (x = k')) as [<-|]; [done | by rewrite app_nil_r].
  - rewrite app_nil_r. cbn [app]. f_equal. rewrite IH. f_equal.
    destruct (decide (k ∈ ks)) as [Ha|Ha],
      (decide (k ∈ x :: ks)) as [Hb|Hb]; try done.
    + destruct Hb. by right.
    + by apply elem_of_cons in Hb as [?|?].
Qed.

(** The dictionary built by the loop is the grouping of the samples by
    class, classes in first-seen order. *)
Lemma grouped_spec (l : list (string * Q)) : grouped [] l = spec_groups l.
Proof.
  induction l as [|[k v] l IH] using rev_ind; [done|].
  rewrite grouped_snoc, IH. unfold spec_groups at 1.
  rewrite dd_append_groups by apply NoDup_first_seen_from.
  unfold spec_groups, first_seen.
  rewrite (fmap_app fst l). change (fst <$> [(k, v)]) with [k].
  rewrite first_seen_from_snoc, fmap_app. f_equal.
  destruct (decide (k ∈ first_seen_from [] l.*1)) as [Hk|Hk];
    destruct (decide _) as [Hl|Hl]; rewrite elem_of_first_seen_from in Hk.
  - done.
  - destruct Hl. right. tauto.
  - destruct Hk. split; [|apply not_elem_of_nil].
    by destruct Hl as [?%elem_of_nil|?].
  - cbn. rewrite values_of_snoc, values_of_absent; [|tauto].
    by destruct (decide (k = k)).
Qed.

Lemma dd_append_nonempty (k : string) (v : Q) (m : list (string * list Q)) :
  Forall (fun g => g.2 <> []) m -> Forall (fun g => g.2 <> []) (dd_append k v m).
Proof.
  induction 1 as [|[k' l] m Hl Hm IH]; cbn.
  - by repeat constructor.
  - destruct (decide (k = k')); constructor; try done.
    cbn. by destruct l.
Qed.

Lemma grouped_nonempty (l : list (string * Q)) (vs : list (string * list Q)) :
  Forall (fun g => g.2 <> []) vs -> Forall (fun g => g.2 <> []) (grouped vs l).
Proof.
  revert vs. induction l as [|[k v] l IH]; intros vs Hvs; [done|].
  apply IH. by apply dd_append_nonempty.
Qed.

(** ** Writing the report *)

Lemma read_write (fs : filesystem) (fn t c : string) :
  read fs fn = Some c -> read (write fs fn t) fn = Some (c +:+ t).
Proof. unfold read, write. cbn. intros H. by rewrite lookup_alter_eq, H. Qed.

Lemma py_sum_from (l : list Q) (a : Q) :
  (fold_left Qplus l a == a + fold_right Qplus 0 l)%Q.
Proof.
  revert a. induction l as [|x l IH]; intros a; cbn [fold_left fold_right].
  - ring.
  - rewrite IH. ring.
Qed.

(** The mean of a list times its length is the sum of its elements. *)
Lemma mean_sum (v : Q) (l : list Q) :
  (mean (v :: l) * py_len (v :: l) == fold_right Qplus 0 (v :: l))%Q.
Proof.
  unfold mean, py_sum. rewrite py_sum_from.
  assert (~ py_len (v :: l) == 0)%Q as Hn.
  { unfold py_len, Qeq. cbn. lia. }
  field. exact Hn.
Qed.

Lemma py_div_len (l : list Q) :
  l <> [] -> py_div (py_sum l) (py_len l) = Ok (mean l).
Proof.
  intros Hl. apply py_div_pos. unfold py_len, Qlt. cbn.
  destruct l; [done|]. cbn [length]. lia.
Qed.

Lemma write_samples_spec (l : list (string * Q)) (fs : filesystem)
    (fn : string) (vs : list (string * list Q)) (c : string) :
  read fs fn = Some c ->
  exists fs',
    write_samples fs fn vs l = (fs', grouped vs l) /\
    read fs' fn
    = Some (c +:+ concat_lines ((fun p => sample_line p.1 p.2) <$> l)) /\
    dirs fs' = dirs fs.
Proof.
  revert fs vs c. induction l as [|[k v] l IH]; intros fs vs c Hc.
  - exists fs. cbn. by rewrite string_app_nil_r.
  - cbn [write_samples].
    destruct (IH _ (dd_append k v vs) _ (read_write _ _ (sample_line k v) _ Hc))
      as (fs' & -> & Hr & Hd).
    exists fs'. split; [done|]. split; [|done].
    rewrite Hr. cbn. unfold concat_lines. cbn [fold_right].
    by rewrite string_app_assoc.
Qed.

Lemma write_averages_spec (items : list (string * list Q))
    (fs : filesystem) (fn c : string) :
  Forall (fun g => g.2 <> []) items ->
  read fs fn = Some c ->
  exists fs',
    write_averages fs fn items = Ok fs' /\
    read fs' fn
    = Some (c +:+ concat_lines
                    ((fun g => average_line g.1 (mean g.2)) <$> items)).
Proof.
  intros Hne. revert fs c.
  induction Hne as [|[k l] items Hl _ IH]; intros fs c Hc.
  - exists fs. cbn. by rewrite string_app_nil_r.
  - cbn [write_averages]. rewrite (py_div_len l Hl).
    cbn [mbind result_bind].
    destruct (IH _ _ (read_write _ _ (average_line k (mean l)) _ Hc))
      as (fs' & -> & Hr).
    exists fs'. split; [done|].
    rewrite Hr. cbn. unfold concat_lines. cbn [fold_right].
    by rewrite string_app_assoc.
Qed.

(** On a host with the directory [output] the report is written, and the
    file holds the report of the samples. *)
Lemma save_speeds_to_file_spec (s : state) (unique_id : string)
    (fs : filesystem) :
  "output" ∈ dirs fs ->
  exists fs',
    save_speeds_to_file s unique_id fs = Ok fs' /\
    read fs' (report_filename unique_id) = Some (report_text (speeds s)).
Proof.
  intros Hdir. unfold save_speeds_to_file, open_w.
  destruct (decide _) as [_|?]; [|done]. cbn [mbind result_bind].
  set (fn := report_filename unique_id).
  set (fs1 := Filesystem _ _).
  assert (read fs1 fn = Some "") as H1 by apply lookup_insert_eq.
  pose proof (read_write _ _ ("Vehicle Type      Speed (km/h)" +:+ nl) _ H1)
    as H2.
  pose proof (read_write _ _ ("==============================" +:+ nl) _ H2)
    as H3.
  destruct (write_samples_spec (speeds s) _ _ [] _ H3) as (fs4 & -> & H4 & Hd).
  unfold open_a. destruct (decide _) as [_|Hno]; [|by destruct Hno; rewrite Hd].
  cbn [mbind result_bind].
  set (fs5 := Filesystem _ _).
  assert (read fs5 fn = read fs4 fn) as H5.
  { unfold read, fs5. cbn. rewrite lookup_insert_eq.
    unfold read in H4. by rewrite H4. }
  rewrite H4 in H5.
  pose proof (read_write _ _ (nl +:+ "Average Speeds:" +:+ nl) _ H5) as H6.
  pose proof (read_write _ _ ("==============================" +:+ nl) _ H6)
    as H7.
  destruct (write_averages_spec (grouped [] (speeds s)) _ _ _
              (grouped_nonempty _ [] (Forall_nil_2 _)) H7) as (fs' & -> & H8).
  exists fs'. split; [done|]. rewrite H8, grouped_spec. f_equal.
  unfold report_text. by rewrite !string_app_assoc.
Qed.

Lemma save_speeds_to_file_no_dir (s : state) (unique_id : string)
    (fs : filesystem) :
  "output" ∉ dirs fs ->
  save_speeds_to_file s unique_id fs = Raise FileNotFoundError.
Proof.
  intros Hdir. unfold save_speeds_to_file, open_w.
  by destruct (decide _).
Qed.

(** Whenever the report is written, the file holds the report of the
    samples. *)
Lemma save_speeds_to_file_reads (s : state) (unique_id : string)
    (fs fs' : filesystem) :
  save_speeds_to_file s unique_id fs = Ok fs' ->
  read fs' (report_filename unique_id) = Some (report_text (speeds s)).
Proof.
  intros H. destruct (decide ("output" ∈ dirs fs)) as [Hd|Hd].
  - destruct (save_speeds_to_file_spec s unique_id fs Hd) as (fs2 & H2 & Hr).
    congruence.
  - rewrite save_speeds_to_file_no_dir in H by done. discriminate.
Qed.

(** A sample line carries the marker exactly when the speed is over 100. *)
Lemma sample_line_marker (vt : string) (v : Q) :
  ends_with (marker +:+ nl) (sample_line vt v) = negb (Qle_bool v 100).
Proof.
  unfold sample_line, ends_with.
  destruct (Qlt_le_dec 100 v) as [Hgt|Hle].
  - assert (Qle_bool v 100 = false) as ->.
    { destruct (Qle_bool v 100) eqn:Hb; [|done].
      apply Qle_bool_iff in Hb. by apply Qle_not_lt in Hb. }
    apply bool_decide_eq_true. rewrite !chars_app, <- chars_app.
    do 4 apply suffix_app_r. done.
  - assert (Qle_bool v 100 = true) as -> by by apply Qle_bool_iff.
    apply bool_decide_eq_false. rewrite !chars_app.
    change (String.list_ascii_of_string " km/h" ++ String.list_ascii_of_string nl)
      with (String.list_ascii_of_string " km/" ++ [Ascii.ascii_of_nat 104]
            ++ String.list_ascii_of_string nl).
    change (String.list_ascii_of_string nl) with [Ascii.ascii_of_nat 10].
    rewrite !app_assoc.
    change (String.list_ascii_of_string marker ++ [Ascii.ascii_of_nat 10])
      with (([Ascii.ascii_of_nat 226; Ascii.ascii_of_nat 173]
             ++ [Ascii.ascii_of_nat 149]) ++ [Ascii.ascii_of_nat 10]).
    intros H. apply suffix_snoc_inv_2, suffix_snoc_inv_1 in H. discriminate.
Qed.

(** C8. The file written by [save_speeds_to_file] holds the report of the
    samples: the header, one line per sample, the separator, and one line
    per class with the arithmetic mean of the samples of the class (the
    number that, times their count, is their sum), the classes in the
    order in which they first occur; a sample line ends with the marker
    exactly when the speed is over 100; and the three samples
    car 50, car 70, truck 120 give the averages car 60.00 and truck 120.00,
    with the marker on the line of the truck alone. *)
Theorem report_of_samples :
  (forall s unique_id fs fs',
     save_speeds_to_file s unique_id fs = Ok fs' ->
     read fs' (report_filename unique_id) = Some (report_text (speeds s))) /\
  (forall v l,
     (mean (v :: l) * py_len (v :: l) == fold_right Qplus 0 (v :: l))%Q) /\
  (forall vt v,
     ends_with (marker +:+ nl) (sample_line vt v) = negb (Qle_bool v 100)) /\
  spec_groups demo_samples
  = [("car", [50%Q; 70%Q]); ("truck", [120%Q])] /\
  (mean [50; 70] == 60)%Q /\ (mean [120] == 120)%Q /\
  exists fs',
    save_speeds_to_file (with_speeds demo_samples) "run" host_fs = Ok fs' /\
    read fs' "output/speeds_run.txt" = Some demo_report.
Proof.
  split; [exact save_speeds_to_file_reads|].
  split; [exact mean_sum|].
  split; [exact sample_line_marker|].
  split; [reflexivity|]. split; [reflexivity|]. split; [reflexivity|].
  eexists. split; vm_compute; reflexivity.
Qed.

Lemma report_of_samples_witness :
  exists fs',
    save_speeds_to_file (with_speeds demo_samples) "a" used_fs = Ok fs' /\
    read fs' (report_filename "a") = Some (report_text demo_samples).
Proof.
  destruct (save_speeds_to_file_spec (with_speeds demo_samples) "a" used_fs)
    as (fs' & Hsave & _); [vm_compute; reflexivity|].
  exists fs'. split; [exact Hsave|].
  exact (proj1 report_of_samples _ _ _ _ Hsave).
Defined.

(** C9. Two invocations of [save_speeds_to_file] over the same list of
    samples, with any two identifiers and on any two hosts, leave the same
    content in their report files; the names of the files differ when the
    identifiers do. *)
Theorem report_deterministic (s1 s2 : state) (id1 id2 : string)
    (fs1 fs2 fs1' fs2' : filesystem) :
  speeds s1 = speeds s2 ->
  save_speeds_to_file s1 id1 fs1 = Ok fs1' ->
  save_speeds_to_file s2 id2 fs2 = Ok fs2' ->
  read fs1' (report_filename id1) = read fs2' (report_filename id2) /\
  is_Some (read fs1' (report_filename id1)) /\
  (id1 <> id2 -> report_filename id1 <> report_filename id2).
Proof.
  intros Hs H1 H2.
  rewrite (save_speeds_to_file_reads _ _ _ _ H1).
  rewrite (save_speeds_to_file_reads _ _ _ _ H2).
  split; [by rewrite Hs|]. split; [by eexists|].
  intros Hne Heq. apply Hne. unfold report_filename in Heq.
  apply String.app_inj in Heq. by apply string_app_inv_tail in Heq.
Qed.

Lemma report_deterministic_witness :
  exists fsa fsb,
    save_speeds_to_file (with_speeds [("car", (100 # 2)%Q)]) "a" host_fs
    = Ok fsa /\
    save_speeds_to_file demo_state2 "b" used_fs = Ok fsb /\
    read fsa (report_filename "a") = read fsb (report_filename "b") /\
    report_filename "a" <> report_filename "b".
Proof.
  destruct (save_speeds_to_file_spec (with_speeds [("car", (100 # 2)%Q)])
              "a" host_fs) as (fsa & Ha & _); [vm_compute; reflexivity|].
  destruct (save_speeds_to_file_spec demo_state2 "b" used_fs)
    as (fsb & Hb & _); [vm_compute; reflexivity|].
  exists fsa, fsb. split; [exact Ha|]. split; [exact Hb|].
  destruct (report_deterministic
              (with_speeds [("car", (100 # 2)%Q)]) demo_state2 "a" "b"
              host_fs used_fs fsa fsb eq_refl Ha Hb) as (Hr & _ & Hn).
  split; [exact Hr|]. apply Hn. discriminate.
Defined.

Lemma write_samples_snd (l : list (string * Q)) (fs : filesystem)
    (fn : string) (vs : list (string * list Q)) :
  (write_samples fs fn vs l).2 = grouped vs l.
Proof.
  revert fs vs. induction l as [|[k v] l IH]; intros fs vs; [done|].
  cbn [write_samples]. by rewrite IH.
Qed.

(** C10. For every list of samples, the empty one included: each class of
    [vehicle_speeds] after the loop of lines 168-175 has at least one
    speed, so the division of line 182 returns the mean; and
    [save_speeds_to_file] either writes the report or fails on the missing
    directory, never on a division by zero. *)
Theorem averages_never_divide_by_zero (s : state) (unique_id : string)
    (fs : filesystem) :
  (forall fs0 fn,
     Forall (fun g => (0 < length g.2)%nat /\
                      py_div (py_sum g.2) (py_len g.2) = Ok (mean g.2))
       (write_samples fs0 fn [] (speeds s)).2) /\
  ((exists fs', save_speeds_to_file s unique_id fs = Ok fs') \/
   save_speeds_to_file s unique_id fs = Raise FileNotFoundError).
Proof.
  split.
  - intros fs0 fn. rewrite write_samples_snd.
    eapply Forall_impl; [apply (grouped_nonempty _ []); constructor|].
    intros [k l] Hl. cbn in *. split; [|by apply py_div_len].
    destruct l; [done | cbn; lia].
  - destruct (decide ("output" ∈ dirs fs)) as [Hd|Hd].
    + left. destruct (save_speeds_to_file_spec s unique_id fs Hd)
        as (fs' & H & _). by exists fs'.
    + right. by apply save_speeds_to_file_no_dir.
Qed.

(** * Further properties of the code *)

(** ** The loop body *)

(** X1. An iteration that returns records a sample exactly when the move
    of the track crosses the region, the track is not in [trkd_ids] and
    the elapsed time is positive; and it appends the track to [trkd_ids]
    exactly when the move crosses and the track is not there yet, whatever
    the elapsed time. *)
Theorem sampled_exactly_on_fresh_crossing (E : env) (s s' : state)
    (d : detection) (e : event) :
  process_detection E s d = Ok (s', e) ->
  (is_Some (ev_sample e) <->
   crossing E s d = true /\ (det_id d ∉ trkd_ids s) /\
   (0 < elapsed E s d)%Q) /\
  trkd_ids s'
  = (if crossing E s d && bool_decide (det_id d ∉ trkd_ids s)
     then trkd_ids s ++ [det_id d] else trkd_ids s).
Proof.
  intros Hd. apply step_inv in Hd as (_ & _ & _ & _ & _ & Ho).
  destruct Ho as [Hno _ Hids _ _ | Hc Hin Hle _ Hids _ _
                 | vt Hc Hin Hpos _ _ Hids _ _].
  - split.
    + split; [by intros [x Hx]|]. intros (Hc & Hin & _).
      destruct Hno; [congruence | done].
    + rewrite Hids. destruct Hno as [->|Hin]; [done|].
      rewrite (bool_decide_eq_false_2 _) by auto. by rewrite andb_false_r.
  - split.
    + split; [by intros [x Hx]|]. intros (_ & _ & Hpos).
      exfalso. eapply Qlt_irrefl, Qlt_le_trans; eauto.
    + by rewrite Hids, Hc, (bool_decide_eq_true_2 _ Hin).
  - split.
    + split; [done | by eexists].
    + by rewrite Hids, Hc, (bool_decide_eq_true_2 _ Hin).
Qed.

Lemma sampled_exactly_on_fresh_crossing_witness :
  (is_Some (Some ("car", (100 # 2)%Q)) <->
   crossing demo_env demo_state1 (car_at 200) = true /\
   (1 ∉ trkd_ids demo_state1) /\
   (0 < elapsed demo_env demo_state1 (car_at 200))%Q) /\
  trkd_ids demo_state2 = [1].
Proof.
  apply (sampled_exactly_on_fresh_crossing demo_env demo_state1 demo_state2
           (car_at 200) (Event 1 2 "car" (Some ("car", (100 # 2)%Q)))).
  vm_compute; reflexivity.
Defined.

(** When an iteration raises. *)
Lemma process_detection_raises (E : env) (s : state) (d : detection) :
  spd_tracked s ->
  (forall x, process_detection E s d = Raise x ->
     x = KeyError /\ names E !! det_cls d = None /\
     spd s !! det_id d = None) /\
  (names E !! det_cls d = None -> spd s !! det_id d = None ->
   process_detection E s d = Raise KeyError) /\
  (is_Some (spd s !! det_id d) ->
   exists s' e, process_detection E s d = Ok (s', e)).
Proof.
  intros Hs.
  assert (is_Some (spd s !! det_id d) ->
          exists s' e, process_detection E s d = Ok (s', e)) as Hsome.
  { intros [v Hv]. unfold process_detection.
    destruct (observe_Ok s d)
      as (s1 & -> & Hspd & Hids & _ & _ & Hpt & Hpp & _).
    cbn [mbind result_bind]. unfold speed_label. rewrite Hspd, Hv.
    cbn [mbind result_bind]. unfold get_direction, py_getitem.
    rewrite Hpp. cbn [mbind result_bind].
    assert (det_id d ∈ trkd_ids s1) as Hin.
    { rewrite Hids. apply Hs. by eexists. }
    unfold sample. destruct (intersects E _ _).
    - destruct (decide _) as [_|Hno]; [|done].
      cbn [mbind result_bind]. eauto.
    - cbn [mbind result_bind]. eauto. }
  assert (names E !! det_cls d = None -> spd s !! det_id d = None ->
          process_detection E s d = Raise KeyError) as Hnone.
  { intros Hn Hv. unfold process_detection.
    destruct (observe_Ok s d) as (s1 & -> & Hspd & _).
    cbn [mbind result_bind]. unfold speed_label, py_getitem.
    by rewrite Hspd, Hv, Hn. }
  split; [|by split].
  intros x Hx.
  destruct (names E !! det_cls d) as [vt|] eqn:Hn.
  { destruct (step_total E s d vt Hn) as (s' & e & H). congruence. }
  destruct (spd s !! det_id d) as [v|] eqn:Hv.
  { destruct Hsome as (s' & e & H); [by eexists | congruence]. }
  rewrite Hnone in Hx by done. by injection Hx as <-.
Qed.

(** X2. From a state in which every track with a speed is in [trkd_ids]
    (every reachable state is one), an iteration raises nothing but
    [KeyError], and raises it exactly when the class of the detection has no
    name and the track has no speed yet: a track that has its speed is
    processed whatever class the detector reports for it. *)
Theorem iteration_raises_only_KeyError (E : env) (s : state) (d : detection) :
  spd_tracked s ->
  (forall x, process_detection E s d = Raise x ->
     x = KeyError /\ names E !! det_cls d = None /\
     spd s !! det_id d = None) /\
  (names E !! det_cls d = None -> spd s !! det_id d = None ->
   process_detection E s d = Raise KeyError) /\
  (is_Some (spd s !! det_id d) ->
   exists s' e, process_detection E s d = Ok (s', e)).
Proof. exact (process_detection_raises E s d). Qed.

Lemma spd_tracked_demo_state2 : spd_tracked demo_state2.
Proof.
  apply (trace_spd_tracked demo_env (concat demo_crossing) init demo_state2
           demo_events2); [vm_compute; reflexivity | exact spd_tracked_init].
Qed.

Lemma iteration_raises_only_KeyError_witness :
  process_detection demo_env demo_state2 unnamed_new = Raise KeyError /\
  exists s' e, process_detection demo_env demo_state2 unnamed_known = Ok (s', e).
Proof.
  split.
  - apply (iteration_raises_only_KeyError demo_env demo_state2 unnamed_new
             spd_tracked_demo_state2); vm_compute; reflexivity.
  - apply (iteration_raises_only_KeyError demo_env demo_state2 unnamed_known
             spd_tracked_demo_state2). by eexists.
Defined.

(** X3. A sample recorded on the iteration in which the track is seen for
    the first time has speed zero: the previous position is then the current
    one (line 83), whatever the clock reads. *)
Theorem first_observation_sample_is_zero (E : env) (s s' : state)
    (d : detection) (e : event) (vt : string) (v : Q) :
  trk_pp s !! det_id d = None ->
  process_detection E s d = Ok (s', e) ->
  ev_sample e = Some (vt, v) ->
  (v == 0)%Q /\ spd s' !! det_id d = Some v /\ det_id d ∈ trkd_ids s'.
Proof.
  intros Hpp Hd Hsmp. apply step_inv in Hd as (_ & _ & _ & _ & _ & Ho).
  rewrite Hsmp in Ho.
  apply outcome_sampled in Ho as (_ & Hin & Hspd & _ & -> & _).
  split; [|split; [by rewrite Hspd, lookup_insert_eq | done]].
  unfold speed_of, prev_pos. rewrite Hpp. cbn [default].
  assert (snd (det_pos d) - snd (det_pos d) == 0)%Q as -> by ring.
  reflexivity.
Qed.

Lemma first_observation_sample_is_zero_witness :
  ((0 # 10) == 0)%Q /\ spd demo_state_on_line !! 1 = Some (0 # 10)%Q /\
  1 ∈ trkd_ids demo_state_on_line.
Proof.
  apply (first_observation_sample_is_zero demo_env init demo_state_on_line
           (car_at 150) (Event 1 2 "car" (Some ("car", (0 # 10)%Q))) "car");
    vm_compute; reflexivity.
Defined.

(** ** Runs *)

Lemma consistent_init : consistent init.
Proof.
  split; [constructor|]. split; [exact spd_tracked_init|].
  split; [done|]. intros id v Hv. cbn in Hv. by rewrite lookup_empty in Hv.
Qed.

Lemma outcome_consistent (E : env) (s s' : state) (d : detection)
    (smp : option (string * Q)) :
  outcome E s d s' smp -> consistent s -> consistent s'.
Proof.
  intros Ho (Hnd & Hs & Hlen & Hval).
  pose proof (outcome_spd_tracked _ _ _ _ _ Ho Hs) as Hs'.
  destruct Ho as [_ Hspd Hids Hsp _ | _ Hin _ Hspd Hids Hsp _
                 | vt _ Hin _ _ Hspd Hids Hsp _].
  - unfold consistent. rewrite Hspd, Hids, Hsp. done.
  - unfold consistent. rewrite Hspd, Hids, Hsp.
    split; [|done]. apply NoDup_app. split; [done|].
    split; [|apply NoDup_singleton].
    intros x Hx ->%list_elem_of_singleton. done.
  - assert (spd s !! det_id d = None) as Hnone.
    { destruct (spd s !! det_id d) eqn:Hv; [|done].
      destruct Hin. apply Hs. by eexists. }
    unfold consistent. rewrite Hspd, Hids, Hsp.
    split.
    { apply NoDup_app. split; [done|]. split; [|apply NoDup_singleton].
      intros x Hx ->%list_elem_of_singleton. done. }
    split; [exact Hs'|].
    split.
    { rewrite length_app, map_size_insert_None by done. cbn. lia. }
    intros id v. destruct (decide (id = det_id d)) as [->|Hne].
    + rewrite lookup_insert_eq. intros [= <-]. exists vt.
      apply elem_of_app. right. by apply list_elem_of_singleton.
    + rewrite lookup_insert_ne by done. intros Hv.
      destruct (Hval id v Hv) as [vt' Hvt]. exists vt'.
      apply elem_of_app. by left.
Qed.

Lemma trace_consistent (E : env) (ds : list detection) (s s' : state)
    (es : list event) :
  process_all E s ds = Ok (s', es) -> consistent s -> consistent s'.
Proof.
  revert ds s s' es. apply (process_all_ind E (fun s es s' =>
    consistent s -> consistent s')); [done|].
  intros s d ds s1 e s' es _ Ho _ IH Hs. eauto using outcome_consistent.
Qed.

(** X4. After any run from the constructor state: no track is twice in
    [trkd_ids], every track with a speed is in [trkd_ids], [speeds] has as
    many samples as there are tracks with a speed, and the speed of a track
    is the speed of one of the samples. *)
Theorem attributes_consistent (E : env) (frames : list (list detection))
    (s : state) (es : list event) :
  run E init frames = Ok (s, es) ->
  NoDup (trkd_ids s) /\
  (forall id, is_Some (spd s !! id) -> id ∈ trkd_ids s) /\
  length (speeds s) = size (spd s) /\
  (forall id v, spd s !! id = Some v -> exists vt, (vt, v) ∈ speeds s).
Proof.
  rewrite run_concat. intros H.
  exact (trace_consistent _ _ _ _ _ H consistent_init).
Qed.

Lemma attributes_consistent_witness :
  NoDup (trkd_ids demo_state3) /\
  (forall id, is_Some (spd demo_state3 !! id) -> id ∈ trkd_ids demo_state3) /\
  length (speeds demo_state3) = size (spd demo_state3) /\
  (forall id v, spd demo_state3 !! id = Some v ->
     exists vt, (vt, v) ∈ speeds demo_state3).
Proof.
  apply (attributes_consistent demo_env demo_frames demo_state3
           (demo_events2 ++ demo_events3)).
  vm_compute; reflexivity.
Defined.

Lemma step_grows (E : env) (s s' : state) (d : detection) (e : event) :
  process_detection E s d = Ok (s', e) ->
  speeds s `prefix_of` speeds s' /\ trkd_ids s `prefix_of` trkd_ids s' /\
  dom (spd s) ⊆ dom (spd s') /\
  dom (trk_pt s') = dom (trk_pt s) ∪ {[det_id d]} /\
  dom (trk_pp s') = dom (trk_pp s) ∪ {[det_id d]} /\
  (ticks s' + length (trkd_ids s) = S (ticks s) + length (trkd_ids s'))%nat.
Proof.
  intros Hd. apply step_inv in Hd as (_ & _ & _ & Hpt & Hpp & Ho).
  rewrite Hpt, Hpp, !dom_insert_L.
  assert (forall X : gset Z, {[det_id d]} ∪ X = X ∪ {[det_id d]}) as Hcomm
    by (intros X; apply (comm_L _)).
  rewrite !Hcomm.
  destruct Ho as [_ -> -> -> -> | _ _ _ -> -> -> ->
                 | vt _ _ _ _ -> -> -> ->].
  - repeat split; try done; lia.
  - repeat split; try done; try (by apply prefix_app_r).
    rewrite length_app. cbn. lia.
  - repeat split; try done; try (by apply prefix_app_r).
    + rewrite dom_insert_L. apply union_subseteq_r.
    + rewrite length_app. cbn. lia.
Qed.

Lemma trace_grows (E : env) (ds : list detection) (s s' : state)
    (es : list event) :
  process_all E s ds = Ok (s', es) ->
  speeds s `prefix_of` speeds s' /\ trkd_ids s `prefix_of` trkd_ids s' /\
  dom (spd s) ⊆ dom (spd s') /\
  dom (trk_pt s') = dom (trk_pt s) ∪ ids_of ds /\
  dom (trk_pp s') = dom (trk_pp s) ∪ ids_of ds /\
  (ticks s' + length (trkd_ids s)
   = ticks s + length ds + length (trkd_ids s'))%nat.
Proof.
  revert s s' es. induction ds as [|d ds IH]; intros s s' es H.
  - injection H as <- _. unfold ids_of. cbn.
    rewrite !(right_id_L ∅ (∪)). repeat split; try done; lia.
  - apply process_all_cons in H as (s1 & e & es' & Hd & Hr & ->).
    apply step_grows in Hd as (H1 & H2 & H3 & H4 & H5 & H6).
    apply IH in Hr as (K1 & K2 & K3 & K4 & K5 & K6).
    unfold ids_of in *. cbn [fmap list_fmap list_to_set].
    rewrite K4, K5, H4, H5, <- !(assoc_L (∪)).
    repeat split; try done; try (by etrans); cbn; lia.
Qed.

(** X5. A run removes nothing, from any state: [speeds] and [trkd_ids]
    are extended at the end, and no track loses its speed, its stored
    timestamp or its stored position. *)
Theorem nothing_is_removed (E : env) (frames : list (list detection))
    (s s' : state) (es : list event) :
  run E s frames = Ok (s', es) ->
  speeds s `prefix_of` speeds s' /\ trkd_ids s `prefix_of` trkd_ids s' /\
  dom (spd s) ⊆ dom (spd s') /\ dom (trk_pt s) ⊆ dom (trk_pt s') /\
  dom (trk_pp s) ⊆ dom (trk_pp s').
Proof.
  rewrite run_concat. intros H.
  apply trace_grows in H as (H1 & H2 & H3 & H4 & H5 & _).
  rewrite H4, H5. repeat split; try done; apply union_subseteq_l.
Qed.

Lemma nothing_is_removed_witness :
  speeds demo_state2 `prefix_of` speeds demo_state3 /\
  trkd_ids demo_state2 `prefix_of` trkd_ids demo_state3 /\
  dom (spd demo_state2) ⊆ dom (spd demo_state3) /\
  dom (trk_pt demo_state2) ⊆ dom (trk_pt demo_state3) /\
  dom (trk_pp demo_state2) ⊆ dom (trk_pp demo_state3).
Proof.
  apply (nothing_is_removed demo_env demo_return demo_state2 demo_state3
           demo_events3).
  vm_compute; reflexivity.
Defined.

(** X6. After a run from the constructor state the tracks with a stored
    timestamp, and those with a stored position, are exactly the tracks
    detected in some frame of the run: an entry is made for each track
    seen and none is ever dropped. *)
Theorem entries_are_the_tracks_seen (E : env)
    (frames : list (list detection)) (s : state) (es : list event) :
  run E init frames = Ok (s, es) ->
  dom (trk_pt s) = ids_of (concat frames) /\
  dom (trk_pp s) = ids_of (concat frames).
Proof.
  rewrite run_concat. intros H.
  apply trace_grows in H as (_ & _ & _ & H4 & H5 & _).
  rewrite H4, H5. cbn. rewrite !dom_empty_L, !(left_id_L ∅ (∪)). done.
Qed.

Lemma entries_are_the_tracks_seen_witness :
  dom (trk_pt demo_state3) = ids_of (concat demo_frames) /\
  dom (trk_pp demo_state3) = ids_of (concat demo_frames).
Proof.
  apply (entries_are_the_tracks_seen demo_env demo_frames demo_state3
           (demo_events2 ++ demo_events3)).
  vm_compute; reflexivity.
Defined.

(** X7. In a run from the constructor state the clock is read once for
    each detection processed and once more for each track put in
    [trkd_ids]. *)
Theorem clock_readings (E : env) (frames : list (list detection))
    (s : state) (es : list event) :
  run E init frames = Ok (s, es) ->
  ticks s = (length (concat frames) + length (trkd_ids s))%nat.
Proof.
  rewrite run_concat. intros H.
  apply trace_grows in H as (_ & _ & _ & _ & _ & H6). cbn in H6. lia.
Qed.

Lemma clock_readings_witness :
  ticks demo_state3
  = (length (concat demo_frames) + length (trkd_ids demo_state3))%nat.
Proof.
  apply (clock_readings demo_env demo_frames demo_state3
           (demo_events2 ++ demo_events3)).
  vm_compute; reflexivity.
Defined.

(** ** The report *)

Lemma write_other (fs : filesystem) (fn fn' t : string) :
  fn' <> fn -> read (write fs fn t) fn' = read fs fn'.
Proof. intros Hne. unfold read, write. cbn. by rewrite lookup_alter_ne. Qed.

Lemma write_samples_other (l : list (string * Q)) (fs : filesystem)
    (fn fn' : string) (vs : list (string * list Q)) :
  fn' <> fn -> read (write_samples fs fn vs l).1 fn' = read fs fn'.
Proof.
  intros Hne. revert fs vs. induction l as [|[k v] l IH]; intros fs vs; [done|].
  cbn [write_samples]. by rewrite IH, write_other.
Qed.

Lemma write_samples_dirs (l : list (string * Q)) (fs : filesystem)
    (fn : string) (vs : list (string * list Q)) :
  dirs (write_samples fs fn vs l).1 = dirs fs.
Proof.
  revert fs vs. induction l as [|[k v] l IH]; intros fs vs; [done|].
  cbn [write_samples]. by rewrite IH.
Qed.

Lemma write_averages_other (items : list (string * list Q))
    (fs fs' : filesystem) (fn fn' : string) :
  fn' <> fn -> write_averages fs fn items = Ok fs' ->
  read fs' fn' = read fs fn'.
Proof.
  intros Hne. revert fs. induction items as [|[k l] items IH]; intros fs H.
  - by injection H as <-.
  - cbn [write_averages] in H. apply bind_Ok in H as (avg & _ & H).
    apply IH in H as ->. by rewrite write_other.
Qed.

Lemma write_averages_dirs (items : list (string * list Q))
    (fs fs' : filesystem) (fn : string) :
  write_averages fs fn items = Ok fs' -> dirs fs' = dirs fs.
Proof.
  revert fs. induction items as [|[k l] items IH]; intros fs H.
  - by injection H as <-.
  - cbn [write_averages] in H. apply bind_Ok in H as (avg & _ & H).
    by apply IH in H as ->.
Qed.

(** X8. A call of [save_speeds_to_file] that returns has changed one file
    only: the directories are the same, every file but the report of the
    call holds what it held before, and the report holds the text of the
    samples whatever a file of that name held before. *)
Theorem save_touches_one_file (s : state) (unique_id : string)
    (fs fs' : filesystem) :
  save_speeds_to_file s unique_id fs = Ok fs' ->
  dirs fs' = dirs fs /\
  (forall fn, fn <> report_filename unique_id -> read fs' fn = read fs fn) /\
  read fs' (report_filename unique_id) = Some (report_text (speeds s)).
Proof.
  intros H. split; [|split; [|exact (save_speeds_to_file_reads _ _ _ _ H)]].
  - revert H. unfold save_speeds_to_file, open_w, open_a.
    destruct (decide _) as [_|?]; [|done]. cbn [mbind result_bind].
    destruct (write_samples _ _ _ _) as [fs4 vs] eqn:Hw.
    destruct (decide _) as [_|?]; [|done]. cbn [mbind result_bind].
    intros H. rewrite (write_averages_dirs _ _ _ _ H). cbn [dirs write].
    apply (f_equal fst) in Hw. cbn [fst] in Hw. rewrite <- Hw.
    by rewrite write_samples_dirs.
  - intros fn Hne. revert H. unfold save_speeds_to_file, open_w, open_a.
    destruct (decide _) as [_|?]; [|done]. cbn [mbind result_bind].
    destruct (write_samples _ _ _ _) as [fs4 vs] eqn:Hw.
    destruct (decide _) as [_|?]; [|done]. cbn [mbind result_bind].
    intros H. rewrite (write_averages_other _ _ _ _ fn Hne H).
    rewrite !write_other by done.
    unfold read at 1. cbn [files]. rewrite lookup_insert_ne by done.
    fold (read fs4 fn).
    apply (f_equal fst) in Hw. cbn [fst] in Hw. rewrite <- Hw.
    rewrite write_samples_other, !write_other by done.
    unfold read. cbn [files]. by rewrite lookup_insert_ne.
Qed.

Lemma save_touches_one_file_witness :
  exists fs',
    save_speeds_to_file (with_speeds demo_samples) "a" used_fs = Ok fs' /\
    dirs fs' = dirs used_fs /\
    read fs' "output/speeds_b.txt" = Some "old".
Proof.
  destruct (save_speeds_to_file_spec (with_speeds demo_samples) "a" used_fs)
    as (fs' & Hsave & _); [vm_compute; reflexivity|].
  exists fs'. split; [exact Hsave|].
  destruct (save_touches_one_file _ _ _ _ Hsave) as (Hd & Ho & _).
  split; [exact Hd|]. rewrite Ho; [reflexivity | discriminate].
Defined.

Lemma dd_append_values (k : string) (v : Q) (m : list (string * list Q)) :
  concat (dd_append k v m).*2 ≡ₚ concat m.*2 ++ [v].
Proof.
  induction m as [|[k' l] m IH]; [done|].
  cbn [dd_append]. destruct (decide (k = k')); cbn [fmap list_fmap concat snd].
  - rewrite <- !app_assoc. apply Permutation_app_head, Permutation_app_comm.
  - by rewrite IH, app_assoc.
Qed.

Lemma grouped_values (l : list (string * Q)) (vs : list (string * list Q)) :
  concat (grouped vs l).*2 ≡ₚ concat vs.*2 ++ l.*2.
Proof.
  revert vs. induction l as [|[k v] l IH]; intros vs.
  - cbn. by rewrite app_nil_r.
  - change (grouped vs ((k, v) :: l)) with (grouped (dd_append k v vs) l).
    rewrite IH, dd_append_values, <- app_assoc. done.
Qed.

(** X10. The dictionary [vehicle_speeds] built by the loop of lines
    168-175 loses and invents nothing: its keys are the classes of the
    samples, each once, and its lists together hold the speeds of the
    samples, each as often as in [speeds]. *)
Theorem grouping_keeps_every_sample (fs : filesystem) (fn : string)
    (l : list (string * Q)) :
  NoDup (write_samples fs fn [] l).2.*1 /\
  (forall k, k ∈ (write_samples fs fn [] l).2.*1 <-> k ∈ l.*1) /\
  concat (write_samples fs fn [] l).2.*2 ≡ₚ l.*2.
Proof.
  rewrite write_samples_snd.
  assert ((grouped [] l).*1 = first_seen l) as Hkeys.
  { rewrite grouped_spec. unfold spec_groups.
    rewrite <- list_fmap_compose. apply list_fmap_id. }
  rewrite Hkeys. split; [apply NoDup_first_seen_from|]. split.
  - intros k. unfold first_seen. rewrite elem_of_first_seen_from.
    split; [by intros [? _] | intros ?; split; [done | apply not_elem_of_nil]].
  - apply (grouped_values l []).
Qed.

Lemma py_len_cons (v : Q) (l : list Q) :
  (py_len (v :: l) == py_len l + 1)%Q.
Proof.
  unfold py_len. cbn [length]. rewrite Nat2Z.inj_succ, <- Z.add_1_r.
  by rewrite inject_Z_plus.
Qed.

Lemma sum_within_bounds (lo hi : Q) (l : list Q) :
  Forall (fun x => (lo <= x <= hi)%Q) l ->
  (py_len l * lo <= fold_right Qplus 0 l <= py_len l * hi)%Q.
Proof.
  induction 1 as [|x l [Hlo Hhi] _ [IHlo IHhi]].
  - change (py_len []) with 0%Q. cbn [fold_right].
    split; rewrite Qmult_0_l; apply Qle_refl.
  - cbn [fold_right]. rewrite py_len_cons. split.
    + assert ((py_len l + 1) * lo == lo + py_len l * lo)%Q as -> by ring.
      by apply Qplus_le_compat.
    + assert ((py_len l + 1) * hi == hi + py_len l * hi)%Q as -> by ring.
      by apply Qplus_le_compat.
Qed.

(** X11. The average that line 182 computes for a class lies between any
    two bounds of the speeds of the class: it is at most 100 when every
    sample of the class is, and it is not negative when no sample is. *)
Theorem average_within_bounds (lo hi v : Q) (l : list Q) :
  Forall (fun x => (lo <= x <= hi)%Q) (v :: l) ->
  exists m, py_div (py_sum (v :: l)) (py_len (v :: l)) = Ok m /\
            (lo <= m <= hi)%Q.
Proof.
  intros Hb. exists (mean (v :: l)). split; [by apply py_div_len|].
  assert (0 < py_len (v :: l))%Q as Hpos.
  { unfold py_len, Qlt. cbn. lia. }
  destruct (sum_within_bounds lo hi _ Hb) as [Hlo Hhi].
  unfold mean, py_sum. split.
  - apply Qle_shift_div_l; [done|].
    rewrite py_sum_from, Qplus_0_l, Qmult_comm. done.
  - apply Qle_shift_div_r; [done|].
    rewrite py_sum_from, Qplus_0_l, Qmult_comm. done.
Qed.

Lemma average_within_bounds_witness :
  exists m, py_div (py_sum [50; 70]%Q) (py_len [50; 70]%Q) = Ok m /\
            (0 <= m <= 100)%Q.
Proof.
  apply (average_within_bounds 0 100 50 [70%Q]).
  repeat constructor; discriminate.
Defined.

(** ** The driver *)

(** X12. The loop of the driver stops on a key exactly when the low byte
    of the code that [cv2.waitKey] returned is 113, the code of [q]: the
    value -1 of a wait without a key does not stop it, and the code of [q]
    with higher bits set does. *)
Theorem quit_key_low_byte (key : Z) :
  quit_key key = (key mod 256 =? 113) /\
  quit_key (-1) = false /\ quit_key (113 + 256 * key) = true.
Proof.
  assert (forall k, quit_key k = (k mod 256 =? 113)) as H.
  { intros k. unfold quit_key. change 255 with (Z.ones 8).
    by rewrite Z.land_ones by lia. }
  split; [apply H|]. split; [reflexivity|].
  rewrite H. replace (113 + 256 * key) with (113 + key * 256) by lia.
  rewrite Z_mod_plus_full. reflexivity.
Qed.

Lemma played_prefix (video : list (list detection * Z)) :
  played video `prefix_of` video.*1.
Proof.
  induction video as [|[f key] video IH]; [done|].
  cbn [played fmap list_fmap fst]. apply prefix_cons.
  destruct (quit_key key); [apply prefix_nil | exact IH].
Qed.

Lemma main_loop_run (E : env) (s : state) (video : list (list detection * Z)) :
  main_loop E s video = run E s (played video).
Proof.
  revert s. induction video as [|[f key] video IH]; intros s; [done|].
  cbn [main_loop played run].
  destruct (estimate_speed E s f) as [[s1 es1]|x]; [|done].
  cbn [mbind result_bind]. destruct (quit_key key).
  - cbn [run mbind result_bind]. by rewrite app_nil_r.
  - by rewrite IH.
Qed.

(** X13. The loop of the driver is [estimate_speed] on the frames of the
    stream up to and including the first one after which the quit key was
    read, in order: that frame is processed, and no later frame is. *)
Theorem driver_processes_a_prefix (E : env) (s : state)
    (video : list (list detection * Z)) :
  main_loop E s video = run E s (played video) /\
  played video `prefix_of` video.*1 /\
  (forall frame key video',
     video = (frame, key) :: video' -> quit_key key = true ->
     played video = [frame]).
Proof.
  split; [apply main_loop_run|]. split; [apply played_prefix|].
  intros frame key video' -> Hq. cbn [played]. by rewrite Hq.
Qed.

Lemma driver_processes_a_prefix_witness :
  main_loop demo_env init demo_video = Ok (demo_state2, demo_events2) /\
  played (tail demo_video) = [[car_at 200]].
Proof.
  destruct (driver_processes_a_prefix demo_env init demo_video)
    as (Hrun & _ & _).
  split; [rewrite Hrun; vm_compute; reflexivity|].
  apply (proj2 (proj2 (driver_processes_a_prefix demo_env init
                         (tail demo_video)))
           [car_at 200] 113 [([car_at 100], -1)]); reflexivity.
Defined.

Lemma process_all_raises (E : env) (ds : list detection) (s : state) (x : exn) :
  spd_tracked s -> process_all E s ds = Raise x ->
  x = KeyError /\ exists d, d ∈ ds /\ names E !! det_cls d = None.
Proof.
  revert s. induction ds as [|d ds IH]; intros s Hs H; [done|].
  cbn [process_all] in H.
  destruct (process_detection E s d) as [[s1 e]|y] eqn:Hd.
  - cbn [mbind result_bind] in H.
    destruct (process_all E s1 ds) as [[s2 es]|y] eqn:Hr; [done|].
    injection H as <-. destruct (IH s1) as (-> & d' & Hd' & Hn); [|done|].
    + apply step_inv in Hd as (_ & _ & _ & _ & _ & Ho).
      by eapply outcome_spd_tracked.
    + split; [done|]. exists d'. split; [by right | done].
  - injection H as <-.
    destruct (proj1 (process_detection_raises E s d Hs) y Hd) as (-> & Hn & _).
    split; [done|]. exists d. split; [by left | done].
Qed.



(** X15. When an iteration of a frame played raises, the exception is
    [KeyError], some detection of the frames played has a class without a
    name, and the script ends with that exception: [save_speeds_to_file] is
    not reached and no report is written, whatever samples were recorded
    before. *)
Theorem loop_exception_ends_script (E : env)
    (video : list (list detection * Z)) (unique_id : string)
    (fs : filesystem) (x : exn) :
  run E init (played video) = Raise x ->
  x = KeyError /\
  (exists d, d ∈ concat (played video) /\ names E !! det_cls d = None) /\
  main E true video unique_id fs = Raised KeyError.
Proof.
  intros Hrun. unfold main. rewrite main_loop_run, Hrun.
  rewrite run_concat in Hrun.
  apply process_all_raises in Hrun as (-> & Hd); [|exact spd_tracked_init].
  done.
Qed.

Lemma loop_exception_ends_script_witness :
  run demo_env init (take 2 (played crashing_video))
  = Ok (demo_state2, demo_events2) /\
  speeds demo_state2 = [("car", (100 # 2)%Q)] /\
  (exists d, d ∈ concat (played crashing_video) /\
             names demo_env !! det_cls d = None) /\
  main demo_env true crashing_video "a" host_fs = Raised KeyError.
Proof.
  split; [vm_compute; reflexivity|]. split; [reflexivity|].
  apply (loop_exception_ends_script demo_env crashing_video "a" host_fs
           KeyError).
  vm_compute; reflexivity.
Defined.

(** ** Tracks that are not detected, and moves along the region *)




(** X17. Only the vertical coordinate counts: a sample recorded for a move
    that keeps the vertical coordinate of the stored previous position has
    speed zero, however far the track moved sideways across the region. *)
Theorem level_move_has_speed_zero (E : env) (s s' : state) (d : detection)
    (e : event) (prev : pos) (vt : string) (v : Q) :
  trk_pp s !! det_id d = Some prev ->
  (snd prev == snd (det_pos d))%Q ->
  process_detection E s d = Ok (s', e) ->
  ev_sample e = Some (vt, v) ->
  (v == 0)%Q.
Proof.
  intros Hpp Hy Hd Hsmp. apply step_inv in Hd as (_ & _ & _ & _ & _ & Ho).
  rewrite Hsmp in Ho.
  apply outcome_sampled in Ho as (_ & _ & _ & _ & -> & _).
  unfold speed_of, prev_pos. rewrite Hpp. cbn [default]. rewrite Hy.
  assert (snd (det_pos d) - snd (det_pos d) == 0)%Q as -> by ring.
  reflexivity.
Qed.

Lemma level_move_has_speed_zero_witness : ((0 # 2) == 0)%Q.
Proof.
  apply (level_move_has_speed_zero side_env side_state1 side_state2
           car_moved_sideways (Event 1 2 "car" (Some ("car", (0 # 2)%Q)))
           (640%Q, 100%Q) "car"); vm_compute; reflexivity.
Defined.
